(* ===== verification/_CoqProject ===== *)
-Q . S2P
Prelude.v
PyDict.v
Contracts.v
PoolContract.v
TranscoderPool.v
PoolChanges.v
ServiceUris.v
OrchsMain.v
PyFloat.v
Json.v
OrchsInit.v
StrFormat.v
FeesQuery.v
GqlFetch.v
Fees.v
