(* ===== verification/Prelude.v ===== *)
(** * A verification library for get-livepeer-ai-stats

    The repository holds two independent Python scripts.

    - src/get_ai_orchs.py walks the transcoder pool of the Livepeer
      BondingManager contract through web3 ([get_transcoder_pool]: one
      [getFirstTranscoderInPool] call, then [getNextTranscoderInPool] until
      the null address), asks the AIServiceRegistry contract for each
      address's service URI ([get_ai_orchestrators_uris]), and its main
      block writes both results to text files under [output/].
    - src/get_ai_fees.py queries a GraphQL subgraph once per known
      broadcaster ([fetch_data_for_broadcaster]: the query template
      formatted with [str.format] and sent by a new gql client, which
      first fetches the schema), prints each answer and sums the
      tickets' face values with [float()], [sum] and [+=] into totals that
      start as the [int] 0.

    The two functions of get_ai_orchs.py interact only through the list
    the first returns to the main block, which passes it to the second;
    both talk to the same RPC node, and everything they do is visible in
    one process state: the calls made, the lines printed, the files.

    ** Files, in dependency order

    - [Prelude] (this file): Python exceptions ([exn], [str_exn]), the
      statement monad [M S A = S -> S * outcome A] with stdpp's [≫=]
      notation, [try_except], [for_each], the run equations of the monad
      (hint database [py], rewrite database [py_run], tactics [py_step]
      and [decide_prop]), the equivalence [≡] of statements that run
      alike from every state with [Proper] instances for [≫=],
      [try_except] and [for_each], and shared lemmas on lists and strings
      (notation [^] for [str] concatenation, scope [py_scope]).
    - [PyDict]: Python's insertion-ordered [dict] as a list of items
      ([setitem] for [d[k] = v], [items], [len]) and its invariant (no
      key twice).
    - [Contracts]: addresses (strings), the EIP-55 checksum web3 applies
      and [NULL_ADDRESS] (line 22); contract calls as data ([call]); the
      RPC node as a function of the call's position ([network]); the
      process state [world] (calls, stdout, files, directories) and the
      effects [contract_call] and [print]; the equivalence [≡] of nodes
      that answer every call alike, and [contract_call] [Proper] for it.
    - [PoolContract]: the contracts, which are not in the repository,
      modelled from the spec: the interface [TranscoderPool] /
      [TranscoderPoolLaws] (the pool is an ordered list of distinct
      non-null members read through first/next), its reference instance
      on [list address], the node [chain_network] of a chain state and
      [inject_fault], the same node failing one chosen call.
    - [TranscoderPool]: [get_transcoder_pool] (lines 28-51), the body of
      its [try] [pool_walk] (lines 38-47, 51) and its loop [pool_loop]
      (lines 40-47).
    - [PoolChanges]: the walk on a node whose pool changes between calls
      ([evolving_network]: the chain state of each call's moment), and the
      chain of links ([links_from]) it returns.
    - [ServiceUris]: [get_ai_orchestrators_uris] (lines 54-74): [uri_step]
      (the loop body, lines 66-73) and [uris_loop]; the reference
      ([lookups], [resolved], [uri_entries]) and [uris_loop_spec].
    - [OrchsMain]: the main block after the set-up (lines 89-105) as
      [main], with the file operations it uses ([open_w], [file_write],
      [path_join], [py_iter]).  [main] and the functions it calls are
      [Proper] in the node: equivalent nodes give equivalent runs.
    - [OrchsInit]: the module body (lines 9-25: the [INFURA_API_KEY]
      check, the ABI files, [NULL_ADDRESS], [os.makedirs]) as
      [module_init]; the set-up of the main block (lines 79-87: the [Web3]
      client and the two contract objects with their checksummed
      addresses) as [main_setup]; and the whole run [program] = module
      body, set-up, then [main], whose calls go through the contract
      object they are made on to an RPC node ([rpc_node], routed by
      [contract_network]).  The JSON decoder of Python's [json] module and
      the Keccak hash are parameters.
    - [PyFloat]: Python numbers ([pynum]: [int] or binary64 [float], the
      kernel's primitive floats): [float(str)] correctly rounded
      ([parse_float]), [int + float] ([py_add]) and the builtin [sum]
      ([py_sum], a left fold up to Python 3.11 and Neumaier's compensated
      loop from 3.12, chosen by [py_version]).
    - [Json]: the decoded response values ([json]) with Python's
      subscript, [len], iteration and [float()] on them, errors included.
    - [StrFormat]: [str.format] with keyword arguments, as CPython's
      template parser: literal text, doubled braces, named fields, and the
      [KeyError]/[IndexError]/[ValueError] it raises; format specs and
      conversions are reported as unsupported.
    - [FeesQuery]: the query template (lines 36-58, character for
      character), line 21's formatting and the broadcasters (lines 6-10,
      64).
    - [GqlFetch]: [fetch_data_for_broadcaster] (lines 13-29): the
      transport and client objects, [gql()] ([gql]) and [client.execute]
      ([client_execute]: introspection request, validation, query); gql's
      parser and validator as the class [GraphQLLibrary]; the subgraph as
      a function of the request's position, endpoint and request
      ([subgraph]); the fee script's process state, the requests sent and
      the lines printed (as data: Python's [repr] is not modelled).
    - [Fees]: one loop iteration [fees_step] (66-70), the loop and the
      module body [fees_script] (60-75), for every gql library and
      subgraph.

    ** What the theorems show

    - Pool walk (C1, C2, C6, C7): on a healthy node the walk returns
      exactly the pool, in order, with [length l + 1] calls (C1); a fault
      at any call gives [None] and nothing partial (C2); an empty pool
      gives [[NULL_ADDRESS]], not [[]] (C6, a divergence from the spec);
      on a pool whose links form a cycle it never ends (C7).
    - Pool walk on any node (C15, C16): whatever the node answers or
      raises, a run with fuel [n] makes at most [n + 1] calls (C15), and a
      returned list holds the null address nowhere after its first
      element (C16).
    - Pool walk while the pool changes (C19): the walk returns exactly the
      chains of links each read from the pool of its own moment, for every
      evolution of the pool; so a member that never leaves the pool can be
      missed, with no error line (a gap in the spec's all-or-nothing
      policy).
    - URI resolution (C3, C4, C5): the dict is the orchestrators with a
      non-empty URI, in input order (C3, a refinement of the spec's
      mapping); it never holds an empty URI or a key twice, and the
      function never raises (C4); one failed lookup only removes its own
      entry and the loop goes on (C5).
    - The whole script (C8, C9, C14): against a node that serves a healthy
      chain at the two contracts of lines 14 and 18, with the key and ABI
      files in place, both files hold exactly the expected lines (C8);
      when the pool walk fails the script truncates main_orchestrators.txt
      and crashes with [TypeError] (C9, a bug); without an API key it
      raises [ValueError] before any other effect (C14).
    - The module body (C10, C18): it only creates [output], and its
      globals are the Infura URI, the two ABIs and the null address, which
      is the all-zero text whatever the checksum hash (C10); whatever the
      environment and files, it either raises with the process state
      untouched or ends having only created [output] (C18).
    - Fee query (C11): formatting the template succeeds for every
      broadcaster and splices it verbatim, unescaped, into the filter.
    - One fetch (C20): on any answers and any gql library it returns the
      events after exactly an introspection request and the query, or
      raises in one of five ways with only the requests sent before the
      failure; no document that failed to parse or validate is sent.
    - Fee totals (C12, C13, C17): when every fetch gets a list of events
      with parsable face values the script sends two requests per
      broadcaster (the schema again, then the query), prints each answer
      and the three totals, equal to the per-broadcaster Python sums added
      in order (C12): so the totals depend on how the events are grouped
      and on the Python version's [sum], not only on the events, as the
      spec promises; a failed fetch ends the script with its exception,
      after the earlier answers and before any total (C13); whatever the
      subgraph answers, a normal end prints a non-negative count and
      totals that are the [int] 0 or a [float] (C17).

    ** Fuel

    The only loop that may not end is [while True:] of the pool walk:
    [pool_loop fuel] runs at most [fuel] iterations and ends in [NoFuel]
    when they are spent.  C1 shows that fuel equal to the pool's size is
    enough, and C7 that on a cyclic pool no fuel is; C15 bounds the calls
    of a run by the fuel.  [for] loops are structural recursion on their
    list.

    ** Not modelled (yet)

    - web3's HTTP transport and its ABI handling: the client and contract
      objects are records of the endpoint, the address and the ABI; the
      node is a function of the endpoint, the contract's address and the
      call ([rpc_node]); the ABI is carried but does not change how a
      call is answered.  The [json] module's decoder (a parameter) and
      file reads of paths that are directories.
    - The gql library itself: parsing and validation are the operations
      of [GraphQLLibrary], not a GraphQL parser and type checker; the HTTP
      transport is the [subgraph] function (its errors are its
      exceptions).  Python's [repr] of the printed values.
    - The text formatting of exceptions beyond [str(e)], and web3's
      ABI encoding and decoding: a call returns the decoded string or
      raises.  web3 and the json module are libraries: [contract_call],
      [to_checksum_address] and the exception type model their behaviour,
      not lines of src/; the manifest maps the operations of src/ and the
      Python operations at the lines that use them. *)

From stdpp Require Import base list strings gmap.
From Stdlib Require Import Lia.

(** ** Notation *)

Declare Scope py_scope.
Delimit Scope py_scope with py.
(** Python's [+] on [str]. *)
Notation "s1 ^ s2" := (String.append s1 s2) (at level 30, right associativity) : py_scope.
Open Scope py_scope.

(** ** Python exceptions

    The exceptions the scripts can raise or catch.  [RemoteError] stands for
    anything a web3 or gql call raises (connection errors, contract reverts,
    decoding errors); its payload is the text [str(e)] prints. *)
Inductive exn :=
| RemoteError (msg : string)
| KeyError (key : string)
| TypeError (msg : string)
| ValueError (msg : string)
| OverflowError (msg : string)
| IndexError (msg : string)
| FileNotFoundError (path : string)
| FileExistsError (path : string).

(** [str(e)] for an exception [e], as interpolated by [f"{e}"]. *)
Definition str_exn (e : exn) : string :=
  match e with
  | RemoteError m => m
  | KeyError k => "'" ^ k ^ "'"
  | TypeError m => m
  | ValueError m => m
  | OverflowError m => m
  | IndexError m => m
  | FileNotFoundError p => "[Errno 2] No such file or directory: '" ^ p ^ "'"
  | FileExistsError p => "[Errno 17] File exists: '" ^ p ^ "'"
  end.

(** ["\n"] and the double quote, which a string literal of this
    development does not spell. *)
Definition newline : string := String (Ascii.ascii_of_nat 10) "".
Definition dquote : string := String (Ascii.ascii_of_nat 34) "".

(** Python truthiness of a [str]: [if s:] holds iff [s] is not empty. *)
Definition truthy (s : string) : bool := negb (String.eqb s "").

(** ** Statements as state transformers

    A statement runs on a state [S] and ends normally with a value, with a
    raised exception, or without having finished within the fuel given to
    its loops ([NoFuel]; Python has no such outcome: it is the model's
    account of a loop that has not stopped yet). *)
Inductive outcome (A : Type) :=
| Ret (a : A)
| Exc (e : exn)
| NoFuel.
Arguments Ret {A} a.
Arguments Exc {A} e.
Arguments NoFuel {A}.

Definition M (S A : Type) : Type := S -> S * outcome A.

#[export] Instance M_ret {S} : MRet (M S) := fun A a s => (s, Ret a).
#[export] Instance M_bind {S} : MBind (M S) := fun A B f c s =>
  match c s with
  | (s', Ret a) => f a s'
  | (s', Exc e) => (s', Exc e)
  | (s', NoFuel) => (s', NoFuel)
  end.

(** [raise e] *)
Definition raise {S A} (e : exn) : M S A := fun s => (s, Exc e).

(** The fuel of a [while True:] loop is spent. *)
Definition out_of_fuel {S A} : M S A := fun s => (s, NoFuel).

(** [try: c  except Exception as e: h e].  [NoFuel] is not an exception
    and is not caught. *)
Definition try_except {S A} (c : M S A) (h : exn -> M S A) : M S A := fun s =>
  match c s with
  | (s', Exc e) => h e s'
  | r => r
  end.

Definition modify {S} (f : S -> S) : M S unit := fun s => (f s, Ret tt).

(** A pure computation that may raise, as a statement. *)
Definition lift {S A} (r : exn + A) : M S A := fun s =>
  match r with
  | inl e => (s, Exc e)
  | inr a => (s, Ret a)
  end.

(** [for x in l: body x] (no [break]; the body's exceptions propagate). *)
Fixpoint for_each {S A} (l : list A) (body : A -> M S unit) : M S unit :=
  match l with
  | [] => mret tt
  | x :: l' => body x ≫= fun _ => for_each l' body
  end.

(** ** Running statements: the equations of the monad *)

Section Run.
Context {S : Type}.

Lemma run_ret {A} (a : A) (s : S) : (mret a : M S A) s = (s, Ret a).
Proof. reflexivity. Qed.

Lemma run_bind {A B} (c : M S A) (f : A -> M S B) (s : S) :
  (c ≫= f) s =
  match c s with
  | (s', Ret a) => f a s'
  | (s', Exc e) => (s', Exc e)
  | (s', NoFuel) => (s', NoFuel)
  end.
Proof. reflexivity. Qed.

Lemma run_bind_ret {A B} (c : M S A) (f : A -> M S B) s s' a :
  c s = (s', Ret a) -> (c ≫= f) s = f a s'.
Proof. intros H. by rewrite run_bind, H. Qed.

Lemma run_bind_exc {A B} (c : M S A) (f : A -> M S B) s s' e :
  c s = (s', Exc e) -> (c ≫= f) s = (s', Exc e).
Proof. intros H. by rewrite run_bind, H. Qed.

Lemma run_bind_nofuel {A B} (c : M S A) (f : A -> M S B) s s' :
  c s = (s', NoFuel) -> (c ≫= f) s = (s', NoFuel).
Proof. intros H. by rewrite run_bind, H. Qed.

Lemma run_try_ret {A} (c : M S A) h s s' a :
  c s = (s', Ret a) -> try_except c h s = (s', Ret a).
Proof. intros H. unfold try_except. by rewrite H. Qed.

Lemma run_try_exc {A} (c : M S A) h s s' e :
  c s = (s', Exc e) -> try_except c h s = h e s'.
Proof. intros H. unfold try_except. by rewrite H. Qed.

Lemma run_try_nofuel {A} (c : M S A) h s s' :
  c s = (s', NoFuel) -> try_except c h s = (s', NoFuel).
Proof. intros H. unfold try_except. by rewrite H. Qed.

(** The monad laws, pointwise (no functional extensionality needed). *)
Lemma bind_assoc {A B C} (c : M S A) (f : A -> M S B) (g : B -> M S C) s :
  ((c ≫= f) ≫= g) s = (c ≫= fun x => f x ≫= g) s.
Proof. rewrite !run_bind. by destruct (c s) as [s' []]. Qed.

Lemma bind_ret_l {A B} (a : A) (f : A -> M S B) s : (mret a ≫= f) s = f a s.
Proof. reflexivity. Qed.

Lemma bind_ret_r {A} (c : M S A) s : (c ≫= mret) s = c s.
Proof. rewrite run_bind. by destruct (c s) as [s' []]. Qed.

Lemma run_bind_lift_inr {A B} (a : A) (f : A -> M S B) s : (lift (inr a) ≫= f) s = f a s.
Proof. reflexivity. Qed.

Lemma run_bind_lift_inl {A B} (e : exn) (f : A -> M S B) s :
  (lift (inl e) ≫= f) s = (s, Exc e).
Proof. reflexivity. Qed.

(** A sequence that ended normally: its first statement did. *)
Lemma run_bind_ret_inv {A B} (c : M S A) (f : A -> M S B) s s' b :
  (c ≫= f) s = (s', Ret b) -> exists s1 a, c s = (s1, Ret a) /\ f a s1 = (s', Ret b).
Proof. rewrite run_bind. destruct (c s) as [s1 [a|e|]]; [eauto|done|done]. Qed.

Lemma lift_ret_inv {A} (r : exn + A) s s' a : (lift r : M S A) s = (s', Ret a) -> r = inr a /\ s' = s.
Proof. destruct r; simpl; intros [= -> ->]; done. Qed.

End Run.

Create HintDb py discriminated.
Create Rewrite HintDb py_run.
#[export] Hint Rewrite @run_ret @bind_ret_l @run_bind_lift_inr @run_bind_lift_inl : py_run.

(** [py_run H] rewrites a goal [(c ≫= f) s = ...] with the known run [H]
    of the first statement [c]. *)
Ltac py_step H :=
  first [ rewrite (run_bind_ret _ _ _ _ _ H)
        | rewrite (run_bind_exc _ _ _ _ _ H)
        | rewrite (run_bind_nofuel _ _ _ _ H)
        | rewrite (run_try_ret _ _ _ _ _ H)
        | rewrite (run_try_exc _ _ _ _ _ H)
        | rewrite (run_try_nofuel _ _ _ _ H) ].

(** Close a decidable goal on concrete data by evaluation. *)
Ltac decide_prop := refine (bool_decide_unpack _ _); vm_compute; exact I.

(** ** Statements that run alike

    Two statements are equivalent when they run the same way from every
    state.  The statements of a component are [Proper] for it in their
    parameters (the node answering the calls, above all), so that a
    theorem about a statement carries over to an equivalent one by
    setoid rewriting. *)
#[export] Instance M_equiv {S A} : Equiv (M S A) := fun c1 c2 => forall s, c1 s = c2 s.

#[export] Instance M_equiv_equivalence {S A} : Equivalence (≡@{M S A}).
Proof. split; repeat intro; congruence. Qed.

#[export] Instance M_bind_proper {S A B} :
  Proper (pointwise_relation A (≡) ==> (≡) ==> (≡@{M S B})) mbind.
Proof.
  intros f f' Hf c c' Hc s. rewrite !run_bind, (Hc s).
  destruct (c' s) as [s' []]; [apply Hf|done..].
Qed.

#[export] Instance try_except_proper {S A} :
  Proper ((≡) ==> pointwise_relation exn (≡) ==> (≡@{M S A})) try_except.
Proof.
  intros c c' Hc h h' Hh s. unfold try_except. rewrite (Hc s).
  destruct (c' s) as [s' []]; [done|apply Hh|done].
Qed.

#[export] Instance for_each_proper {S A} l :
  Proper (pointwise_relation A (≡) ==> (≡@{M S unit})) (for_each l).
Proof. intros b b' Hb. induction l as [|x l IH]; [done|].
  apply M_bind_proper; [intros ?; apply IH | apply Hb].
Qed.

(** Running equivalent statements from the same state. *)
Lemma M_equiv_run {S A} (c1 c2 : M S A) s : c1 ≡ c2 -> c1 s = c2 s.
Proof. intros H. apply H. Qed.

(** ** Generic list lemmas shared by the components *)

Lemma app_snoc_cons {A} (l : list A) (x : A) (r : list A) :
  (l ++ [x]) ++ r = l ++ x :: r.
Proof. by rewrite <- app_assoc. Qed.

Lemma truthy_iff (s : string) : truthy s = true <-> s <> "".
Proof.
  unfold truthy. rewrite negb_true_iff.
  split; intros H.
  - intros ->. discriminate.
  - destruct (String.eqb_spec s ""); [contradiction | reflexivity].
Qed.

Lemma str_app_assoc (s1 s2 s3 : string) : (s1 ^ s2) ^ s3 = s1 ^ (s2 ^ s3).
Proof.
  induction s1 as [|c s1 IH]; [reflexivity|].
  change (String c ((s1 ^ s2) ^ s3) = String c (s1 ^ s2 ^ s3)). by rewrite IH.
Qed.

Lemma str_app_nil_r (s : string) : s ^ "" = s.
Proof.
  induction s as [|c s IH]; [reflexivity|].
  change (String c (s ^ "") = String c s). by rewrite IH.
Qed.

(** [''.join(ls)] *)
Definition str_join (ls : list string) : string := foldr String.append "" ls.

Lemma str_join_app l1 l2 : str_join (l1 ++ l2) = str_join l1 ^ str_join l2.
Proof.
  induction l1 as [|s l1 IH]; [reflexivity|].
  change (s ^ str_join (l1 ++ l2) = (s ^ str_join l1) ^ str_join l2).
  by rewrite IH, str_app_assoc.
Qed.

#[export] Hint Rewrite @app_snoc_cons str_app_assoc str_app_nil_r str_join_app : py_run.
