(* ===== verification/PyDict.v ===== *)
(** * Python's [dict], insertion-ordered

    [get_ai_orchestrators_uris] (src/get_ai_orchs.py) builds its result
    in a [dict] with [d[k] = v] and the main block reads it back with
    [.items()] and [len].  A Python dict remembers insertion order:
    assigning to a new key appends it, assigning to an existing key
    replaces the value in place.  The model is the list of items in that
    order.  The lemmas: the dict has no key twice ([dict_wf]) after any
    assignments, a sequence of assignments of fresh keys appends them in
    order ([setitems_fresh]), and what the values of a dict built by
    assignments satisfy ([setitems_values]). *)

From stdpp Require Import base list gmap.
From S2P Require Import Prelude.

Definition pydict (K V : Type) : Type := list (K * V).

Section PyDict.
Context {K V : Type} `{EqDecision K}.

(** [{}] *)
Definition pydict_empty : pydict K V := [].

(** [d[k] = v] *)
Fixpoint setitem (k : K) (v : V) (d : pydict K V) : pydict K V :=
  match d with
  | [] => [(k, v)]
  | (k', v') :: d' =>
      if decide (k = k') then (k', v) :: d' else (k', v') :: setitem k v d'
  end.

(** [d.get(k)]: [None] where [d[k]] raises [KeyError]. *)
Fixpoint getitem (k : K) (d : pydict K V) : option V :=
  match d with
  | [] => None
  | (k', v') :: d' => if decide (k = k') then Some v' else getitem k d'
  end.

(** [d.keys()], [d.items()], [len(d)] *)
Definition keys (d : pydict K V) : list K := map fst d.
Definition items (d : pydict K V) : list (K * V) := d.
Definition len (d : pydict K V) : nat := length d.

(** The representation invariant: no key twice. *)
Definition dict_wf (d : pydict K V) : Prop := NoDup (keys d).

Lemma keys_setitem_in k v d : k ∈ keys d -> keys (setitem k v d) = keys d.
Proof.
  induction d as [|[k' v'] d IH]; simpl; [by rewrite elem_of_nil|].
  rewrite elem_of_cons. intros Hk.
  case_decide; simpl; [congruence|].
  rewrite IH; [done|]. destruct Hk; congruence.
Qed.

Lemma setitem_fresh k v d : k ∉ keys d -> setitem k v d = d ++ [(k, v)].
Proof.
  induction d as [|[k' v'] d IH]; simpl; [done|].
  rewrite not_elem_of_cons. intros [Hne Hk].
  rewrite decide_False by done. by rewrite IH.
Qed.

Lemma keys_app (d1 d2 : pydict K V) : keys (d1 ++ d2) = keys d1 ++ keys d2.
Proof. apply map_app. Qed.

Lemma dict_wf_setitem k v d : dict_wf d -> dict_wf (setitem k v d).
Proof.
  unfold dict_wf. intros Hwf.
  destruct (decide (k ∈ keys d)) as [Hin|Hin].
  - by rewrite keys_setitem_in.
  - rewrite setitem_fresh, keys_app by done. simpl.
    apply NoDup_app. split_and!; [done| |by apply NoDup_singleton].
    intros x Hx ->%list_elem_of_singleton. contradiction.
Qed.

Lemma getitem_Some_in k v d : getitem k d = Some v -> (k, v) ∈ items d.
Proof.
  unfold items. induction d as [|[k' v'] d IH]; simpl; [done|].
  case_decide; intros Hg; simplify_eq; rewrite elem_of_cons; [by left|].
  right. by apply IH.
Qed.


(** [d[k] = v] for each pair in turn. *)
Definition setitems (ps : list (K * V)) (d : pydict K V) : pydict K V :=
  foldl (fun d p => setitem p.1 p.2 d) d ps.

Lemma setitems_app ps1 ps2 d : setitems (ps1 ++ ps2) d = setitems ps2 (setitems ps1 d).
Proof. unfold setitems. by rewrite foldl_app. Qed.

Lemma elem_of_setitem k v d k' v' :
  (k', v') ∈ setitem k v d -> (k', v') ∈ d \/ v' = v.
Proof.
  induction d as [|[k0 v0] d IH]; simpl.
  - rewrite list_elem_of_singleton. intros [=]. by right.
  - case_decide; rewrite !elem_of_cons.
    + intros [[= -> ->]|Hin]; [by right|by left; right].
    + intros [Heq|Hin]; [by left; left|].
      destruct (IH Hin); [by left; right|by right].
Qed.

Lemma setitems_fresh ps d : NoDup (keys d ++ map fst ps) -> setitems ps d = d ++ ps.
Proof.
  revert d. induction ps as [|[k v] ps IH]; intros d Hnd; simpl.
  - by rewrite app_nil_r.
  - rewrite setitem_fresh.
    + rewrite IH; [by rewrite <- app_assoc|].
      rewrite keys_app. simpl. by rewrite <- app_assoc.
    + intros Hk. apply NoDup_app in Hnd as [_ [Hdis _]].
      apply (Hdis k Hk). simpl. set_solver.
Qed.

Lemma dict_wf_setitems ps d : dict_wf d -> dict_wf (setitems ps d).
Proof.
  revert d. induction ps as [|p ps IH]; intros d Hwf; simpl; [done|].
  apply IH, dict_wf_setitem, Hwf.
Qed.

Lemma setitems_values (Q : V -> Prop) ps d :
  (forall kv, kv ∈ d -> Q kv.2) -> Forall (fun kv => Q kv.2) ps ->
  forall kv, kv ∈ setitems ps d -> Q kv.2.
Proof.
  revert d. induction ps as [|[k v] ps IH]; intros d Hd Hps; simpl; [done|].
  apply Forall_cons in Hps as [Hkv Hps].
  apply IH; [|done]. intros [k' v'] Hin.
  destruct (elem_of_setitem _ _ _ _ _ Hin) as [Hold|Hnew]; [by apply (Hd (k', v'))|by subst].
Qed.

(** ** Refinement of stdpp's finite map *)
Context `{Countable K}.

End PyDict.

Arguments pydict_empty {K V}.
