(* ===== verification/Contracts.v ===== *)
(** * The contract-binding environment of src/get_ai_orchs.py

    The script talks to two contracts through web3: the BondingManager
    ([getFirstTranscoderInPool], [getNextTranscoderInPool]) and the
    AIServiceRegistry ([getServiceURI]).  This file holds what both of its
    functions share:
    - addresses as the checksummed strings web3 returns, and the sentinel
      [NULL_ADDRESS] of line 22 with the EIP-55 checksum it is built with;
    - the contract calls as data ([call]), the node that answers them as a
      function of the call's position in the run ([network]), so that a
      fault can be placed at any call;
    - the process state ([world]): the calls made so far, the lines printed,
      the files and directories; and the two effects [contract_call] and
      [print];
    - that the checksum only changes the case of letters
      ([to_checksum_address_case]), whatever the hash;
    - the equivalence of nodes that answer every call alike, for which
      [contract_call] is [Proper]. *)

From stdpp Require Import base list strings gmap.
From Stdlib Require Import Ascii.
From S2P Require Import Prelude.

(** ** Addresses *)

Definition address := string.
#[export] Typeclasses Transparent address.

(** ASCII case mapping, as [str.lower] / [str.upper] do on hex text. *)
Definition ascii_lower (c : ascii) : ascii :=
  let n := Ascii.nat_of_ascii c in
  if decide (65 <= n <= 90) then Ascii.ascii_of_nat (n + 32) else c.

Definition ascii_upper (c : ascii) : ascii :=
  let n := Ascii.nat_of_ascii c in
  if decide (97 <= n <= 122) then Ascii.ascii_of_nat (n - 32) else c.

(** [s.lower()] on ASCII text. *)
Fixpoint str_lower (s : string) : string :=
  match s with
  | EmptyString => EmptyString
  | String c s' => String (ascii_lower c) (str_lower s')
  end.

(** [int(c, 16)] of a hex digit. *)
Definition hex_value (c : ascii) : option nat :=
  let n := Ascii.nat_of_ascii c in
  if decide (48 <= n <= 57) then Some (n - 48)
  else if decide (97 <= n <= 102) then Some (n - 87)
  else if decide (65 <= n <= 70) then Some (n - 55)
  else None.

Fixpoint all_hex (s : string) : bool :=
  match s with
  | EmptyString => true
  | String c s' => bool_decide (is_Some (hex_value c)) && all_hex s'
  end.

Definition strip_0x (s : string) : string :=
  match s with
  | String "0" (String ("x" | "X") s') => s'
  | _ => s
  end.

(** EIP-55, as [Web3.to_checksum_address] computes it: the address is
    lower-cased, and its [i]-th hex digit is upper-cased when the [i]-th
    digit of the Keccak-256 hex digest of the lower-cased text is above 7. *)
Fixpoint checksum_body (body digest : string) : string :=
  match body, digest with
  | String c b', String h d' =>
      let c' := match hex_value h with
                | Some v => if decide (7 < v) then ascii_upper c else c
                | None => c
                end in
      String c' (checksum_body b' d')
  | _, _ => body
  end.

Section Checksum.
(** Keccak-256 of a text, as a hex digest: a hash function the model
    keeps abstract; no theorem of this file depends on its values. *)
Variable keccak_hex : string -> string.

(** [Web3.to_checksum_address(value)]; [None] where it raises
    [ValueError] on a string that is not 40 hex digits. *)
Definition to_checksum_address (value : string) : option address :=
  let body := str_lower (strip_0x value) in
  if all_hex body && bool_decide (String.length body = 40)
  then Some ("0x" ^ checksum_body body (keccak_hex body))
  else None.

End Checksum.

(** ['0' * 40] *)
Definition zeros40 : string := String.concat "" (repeat "0" 40).

(** Line 22: [NULL_ADDRESS = Web3.to_checksum_address('0x' + '0' * 40)].
    The checksum only changes the case of the letters [a]-[f], so the
    value does not depend on the hash ([to_checksum_address_zero] below). *)
Definition NULL_ADDRESS : address := "0x" ^ zeros40.

(** ** Contract calls *)

Inductive call :=
| getFirstTranscoderInPool
| getNextTranscoderInPool (transcoder : address)
| getServiceURI (orchestrator : address).

#[export] Instance call_eq_dec : EqDecision call.
Proof. solve_decision. Defined.

(** What a [.call()] does: return the decoded value or raise. *)
Inductive reply :=
| Returned (value : string)
| Raised (e : exn).

(** The RPC node: its reply to the [n]-th call of the run. *)
Definition network := nat -> call -> reply.

(** ** The process state *)

Record world := mk_world {
  calls : list call;            (** contract calls made, in order *)
  stdout : list string;         (** lines printed, in order *)
  files : gmap string string;   (** file contents by path *)
  dirs : gset string            (** existing directories *)
}.

Definition log_call (c : call) (w : world) : world :=
  mk_world (calls w ++ [c]) (stdout w) (files w) (dirs w).

Definition log_line (s : string) (w : world) : world :=
  mk_world (calls w) (stdout w ++ [s]) (files w) (dirs w).

(** [print(s)] *)
Definition print (s : string) : M world unit := modify (log_line s).

(** A process that has made no call, printed nothing and has no file. *)
Definition world0 : world := mk_world [] [] ∅ ∅.

Section Calls.
Context (net : network).

(** [contract.functions.<f>(args).call()]: one request to the node,
    which is recorded whether it returns or raises. *)
Definition contract_call (c : call) : M world string := fun w =>
  match net (length (calls w)) c with
  | Returned v => (log_call c w, Ret v)
  | Raised e => (log_call c w, Exc e)
  end.

End Calls.

(** ** Lemmas *)

Lemma run_print s w : print s w = (log_line s w, Ret tt).
Proof. reflexivity. Qed.

Lemma run_contract_call_returned net c w v :
  net (length (calls w)) c = Returned v ->
  contract_call net c w = (log_call c w, Ret v).
Proof. intros H. unfold contract_call. by rewrite H. Qed.

Lemma run_contract_call_raised net c w e :
  net (length (calls w)) c = Raised e ->
  contract_call net c w = (log_call c w, Exc e).
Proof. intros H. unfold contract_call. by rewrite H. Qed.

Lemma log_call_calls c w : calls (log_call c w) = calls w ++ [c].
Proof. reflexivity. Qed.

Lemma log_call_stdout c w : stdout (log_call c w) = stdout w.
Proof. reflexivity. Qed.

Lemma log_line_calls s w : calls (log_line s w) = calls w.
Proof. reflexivity. Qed.

Lemma log_line_stdout s w : stdout (log_line s w) = stdout w ++ [s].
Proof. reflexivity. Qed.

#[export] Hint Rewrite log_call_calls log_call_stdout log_line_calls
  log_line_stdout : py_run.

Lemma checksum_body_digits body digest :
  (forall c, c ∈ String.list_ascii_of_string body -> ascii_upper c = c) ->
  checksum_body body digest = body.
Proof.
  revert digest. induction body as [|c b IH]; intros [|h d] Hup; simpl; [done..|].
  rewrite IH by (intros; apply Hup; simpl; set_solver).
  rewrite Hup by (simpl; set_solver).
  by destruct (hex_value h) as [v|]; [case_decide|].
Qed.

Lemma zeros40_chars : String.list_ascii_of_string zeros40 = replicate 40 "0"%char.
Proof. reflexivity. Qed.

(** Whatever the Keccak hash, [Web3.to_checksum_address] accepts
    ['0x' + '0' * 40] and, the address having no letter, leaves it as it
    is. *)
Lemma to_checksum_address_zero (keccak_hex : string -> string) :
  to_checksum_address keccak_hex ("0x" ^ zeros40) = Some NULL_ADDRESS.
Proof.
  unfold to_checksum_address.
  change (str_lower (strip_0x ("0x" ^ zeros40))) with zeros40.
  change (all_hex zeros40 && bool_decide (String.length zeros40 = 40)) with true.
  cbv iota beta. rewrite checksum_body_digits; [reflexivity|].
  intros c Hc. rewrite zeros40_chars in Hc.
  apply elem_of_replicate in Hc as [-> _]. reflexivity.
Qed.

(** The checksum only changes the case of letters. *)
Lemma ascii_lower_upper c : ascii_lower (ascii_upper c) = ascii_lower c.
Proof. destruct c as [[] [] [] [] [] [] [] []]; reflexivity. Qed.

Lemma ascii_lower_idem c : ascii_lower (ascii_lower c) = ascii_lower c.
Proof. destruct c as [[] [] [] [] [] [] [] []]; reflexivity. Qed.

Lemma str_lower_idem s : str_lower (str_lower s) = str_lower s.
Proof. induction s as [|c s IH]; [done|]. simpl. by rewrite ascii_lower_idem, IH. Qed.

Lemma str_lower_app s1 s2 : str_lower (s1 ^ s2) = str_lower s1 ^ str_lower s2.
Proof. induction s1 as [|c s IH]; [done|]. simpl. by rewrite IH. Qed.

Lemma str_lower_checksum_body body digest :
  str_lower (checksum_body body digest) = str_lower body.
Proof.
  revert digest. induction body as [|c b IH]; intros [|h d]; [done..|]. simpl.
  rewrite IH. destruct (hex_value h) as [v|]; [case_decide|]; [|done..].
  by rewrite ascii_lower_upper.
Qed.

(** Whatever the Keccak hash, [Web3.to_checksum_address] accepts a text of
    40 hex digits after its [0x] and returns it with only the case of its
    letters changed. *)
Lemma to_checksum_address_case (keccak_hex : string -> string) v :
  all_hex (str_lower (strip_0x v)) = true -> String.length (str_lower (strip_0x v)) = 40 ->
  exists a, to_checksum_address keccak_hex v = Some a /\
            str_lower a = "0x" ^ str_lower (strip_0x v).
Proof.
  intros Hh Hl. unfold to_checksum_address. rewrite Hh, bool_decide_true by done.
  eexists; split; [reflexivity|].
  by rewrite str_lower_app, str_lower_checksum_body, str_lower_idem.
Qed.

(** ** Nodes that answer alike *)

(** Two nodes are equivalent when they give the same reply to every call
    at every position. *)
#[export] Instance network_equiv : Equiv network := fun n1 n2 => forall k c, n1 k c = n2 k c.

#[export] Instance network_equiv_equivalence : Equivalence (≡@{network}).
Proof. split; repeat intro; congruence. Qed.

#[export] Instance contract_call_proper : Proper ((≡) ==> (=) ==> (≡)) contract_call.
Proof. intros n1 n2 Hn c ? <- w. unfold contract_call. by rewrite Hn. Qed.
