(* ===== verification/PoolContract.v ===== *)
(** * The BondingManager's transcoder pool, as the script sees it

    [get_transcoder_pool] only uses two views of the pool:
    [getFirstTranscoderInPool()] and [getNextTranscoderInPool(addr)], and
    [get_ai_orchestrators_uris] one view of the AIServiceRegistry,
    [getServiceURI(addr)].  The contracts are not part of the repository;
    what they promise is modelled from the spec (section 3, "Orchestrator
    Pool"): an ordered list of distinct members, read through "first" and
    "next after X", ended by the null address.

    - [TranscoderPool] is the interface (a class of views) and
      [TranscoderPoolLaws] the promise, stated against the abstract pool
      [list address] ([first_in], [next_in]);
    - the list itself is the reference instance;
    - [chain_network] is the RPC node of a chain in a given state, which
      answers every call, and [inject_fault] the same node failing one
      chosen call. *)

From stdpp Require Import base list strings gmap.
From S2P Require Import Prelude Contracts.

(** ** The abstract pool *)

Definition first_in (l : list address) : address := hd NULL_ADDRESS l.

(** The member after [a], or the null address after the last member and
    for an address that is not a member. *)
Fixpoint next_in (l : list address) (a : address) : address :=
  match l with
  | [] => NULL_ADDRESS
  | x :: r => if decide (x = a) then hd NULL_ADDRESS r else next_in r a
  end.

Definition pool_wf (l : list address) : Prop :=
  NoDup l /\ NULL_ADDRESS ∉ l.

(** ** The interface *)

Class TranscoderPool (P : Type) := {
  pool_first : P -> address;                 (** getFirstTranscoderInPool *)
  pool_next : P -> address -> address;       (** getNextTranscoderInPool *)
  pool_members : P -> list address;
  pool_inv : P -> Prop
}.

Class TranscoderPoolLaws (P : Type) `{TranscoderPool P} := {
  pool_inv_wf p : pool_inv p -> pool_wf (pool_members p);
  pool_first_spec p : pool_inv p -> pool_first p = first_in (pool_members p);
  pool_next_spec p a : pool_inv p -> pool_next p a = next_in (pool_members p) a
}.

#[export] Instance list_pool : TranscoderPool (list address) := {|
  pool_first := first_in;
  pool_next := next_in;
  pool_members l := l;
  pool_inv := pool_wf
|}.

#[export] Instance list_pool_laws : TranscoderPoolLaws (list address).
Proof. split; done. Qed.

(** ** The chain as an RPC node *)

Record chain_state (P : Type) := {
  bonding_manager : P;
  service_uris : gmap address string   (** AIServiceRegistry's mapping *)
}.
Arguments bonding_manager {P}.
Arguments service_uris {P}.

Section Node.
Context {P : Type} `{TranscoderPool P}.

(** A view function of the chain: [getServiceURI] of an address that
    never registered is the empty string (Solidity's default). *)
Definition answer (st : chain_state P) (c : call) : string :=
  match c with
  | getFirstTranscoderInPool => pool_first (bonding_manager st)
  | getNextTranscoderInPool a => pool_next (bonding_manager st) a
  | getServiceURI a => default "" (service_uris st !! a)
  end.

Definition chain_network (st : chain_state P) : network :=
  fun _ c => Returned (answer st c).

End Node.

(** The node [net] with its [k]-th call of the run failing with [e]. *)
Definition inject_fault (k : nat) (e : exn) (net : network) : network :=
  fun n c => if decide (n = k) then Raised e else net n c.

(** ** Lemmas on the abstract pool *)

Lemma next_in_app_cons pre cur r :
  NoDup (pre ++ cur :: r) -> next_in (pre ++ cur :: r) cur = hd NULL_ADDRESS r.
Proof.
  induction pre as [|x pre IH]; simpl; intros Hnd.
  - by rewrite decide_True.
  - apply NoDup_cons in Hnd as [Hx Hnd].
    rewrite decide_False; [by apply IH|].
    intros ->. apply Hx. set_solver.
Qed.

Lemma next_in_not_elem l a : a ∉ l -> next_in l a = NULL_ADDRESS.
Proof.
  induction l as [|x l IH]; simpl; [done|].
  rewrite not_elem_of_cons. intros [Hne Ha].
  rewrite decide_False by congruence. by apply IH.
Qed.

Lemma pool_wf_not_null pre x r :
  pool_wf (pre ++ x :: r) -> x <> NULL_ADDRESS.
Proof. intros [_ Hn] ->. apply Hn. set_solver. Qed.

Lemma inject_fault_at k e net c : inject_fault k e net k c = Raised e.
Proof. unfold inject_fault. by rewrite decide_True. Qed.

Lemma inject_fault_other k e net n c :
  n <> k -> inject_fault k e net n c = net n c.
Proof. intros Hne. unfold inject_fault. by rewrite decide_False. Qed.

(** ** Example data for the witnesses *)

Definition example_pool : list address := ["0xA1"; "0xB2"; "0xC3"].

(** "0xB2" registered a URI, "0xC3" registered the empty string and "0xA1"
    none. *)
Definition example_chain : chain_state (list address) :=
  {| bonding_manager := example_pool;
     service_uris := {[ "0xB2" := "https://b2.example:8935"; "0xC3" := "" ]} |}.

Lemma example_chain_inv : pool_inv (bonding_manager example_chain).
Proof. split; decide_prop. Qed.
