(* ===== verification/TranscoderPool.v ===== *)
(** * [get_transcoder_pool] (src/get_ai_orchs.py, lines 28-51)

    The pool walk: one [getFirstTranscoderInPool] call, then one
    [getNextTranscoderInPool] call per member until the node answers the
    null address, the whole walk inside one [try] whose handler prints the
    exception and returns [None].  The body of the [try] is [pool_walk];
    each theorem about the function is proved from a run lemma of
    [pool_walk] that the main block's proofs share.  The walk is [Proper]
    in the node.  The [while True:] loop is run with fuel:
    [pool_loop fuel] performs at most [fuel] iterations and ends in
    [NoFuel] when they are spent.

    The theorems, against any pool meeting [TranscoderPoolLaws]:
    - on a healthy node and a non-empty pool, enough fuel (the pool's size)
      gives exactly the members in order, with [length l + 1] calls;
    - on an empty pool the result is [[NULL_ADDRESS]], not [[]];
    - a fault at any call of the walk gives [None], one printed line, and
      no call after the failing one;
    - on a node that never answers the null address the loop never ends;
    - on any node: at most [fuel + 1] calls, and no null address after the
      first element of a result. *)

From stdpp Require Import base list strings gmap.
From S2P Require Import Prelude Contracts PoolContract.

Section GetTranscoderPool.
Context (net : network).

(** Lines 40-47: [while True:] with at most [fuel] iterations. *)
Fixpoint pool_loop (fuel : nat) (current_transcoder_addr : address)
    (transcoders : list address) : M world (list address) :=
  match fuel with
  | 0 => out_of_fuel
  | S fuel' =>
      next_transcoder_addr ←
        contract_call net (getNextTranscoderInPool current_transcoder_addr);
      if decide (next_transcoder_addr = NULL_ADDRESS) then mret transcoders
      else pool_loop fuel' next_transcoder_addr
             (transcoders ++ [next_transcoder_addr])
  end.

(** Lines 38-47 and 51: the body of the [try]. *)
Definition pool_walk (fuel : nat) : M world (option (list address)) :=
  current_transcoder_addr ← contract_call net getFirstTranscoderInPool;
  transcoders ← pool_loop fuel current_transcoder_addr [current_transcoder_addr];
  mret (Some transcoders).

(** Lines 37-51. *)
Definition get_transcoder_pool (fuel : nat) : M world (option (list address)) :=
  try_except (pool_walk fuel)
    (fun e => print ("An error occurred: " ^ str_exn e);; mret None).

End GetTranscoderPool.

(** ** The walk depends only on the node's answers *)

#[export] Instance pool_loop_proper :
  Proper ((≡) ==> (=) ==> (=) ==> (=) ==> (≡)) pool_loop.
Proof.
  intros n1 n2 Hn fuel ? <-. induction fuel as [|fuel IH]; intros a ? <- l ? <-; [done|].
  simpl. apply M_bind_proper; [|by rewrite Hn].
  intros x. case_decide; [done|by apply IH].
Qed.

#[export] Instance get_transcoder_pool_proper :
  Proper ((≡) ==> (=) ==> (≡)) get_transcoder_pool.
Proof. intros n1 n2 Hn fuel ? <-. unfold get_transcoder_pool, pool_walk. by setoid_rewrite Hn. Qed.

(** The world after the calls [cs]. *)
Definition add_calls (w : world) (cs : list call) : world :=
  mk_world (calls w ++ cs) (stdout w) (files w) (dirs w).

Lemma add_calls_log w c cs : add_calls (log_call c w) cs = add_calls w (c :: cs).
Proof. unfold add_calls, log_call. simpl. by rewrite <- app_assoc. Qed.

Lemma log_call_add w c : log_call c w = add_calls w [c].
Proof. reflexivity. Qed.

Lemma length_calls_log c w : length (calls (log_call c w)) = S (length (calls w)).
Proof. simpl. rewrite length_app. simpl. lia. Qed.

(** Each [getNextTranscoderInPool] call of the walk from [cur]. *)
Definition next_calls (l : list address) : list call :=
  map getNextTranscoderInPool l.

(** ** The loop *)

Section Loop.
Context {P : Type} `{TranscoderPoolLaws P} (st : chain_state P).
Hypothesis Hinv : pool_inv (bonding_manager st).

Lemma chain_next_member pre cur r n :
  pool_members (bonding_manager st) = pre ++ cur :: r ->
  chain_network st n (getNextTranscoderInPool cur) = Returned (hd NULL_ADDRESS r).
Proof.
  intros Hm. unfold chain_network, answer. f_equal.
  rewrite pool_next_spec, Hm by done. apply next_in_app_cons.
  rewrite <- Hm. apply pool_inv_wf, Hinv.
Qed.

Lemma chain_member_not_null pre x r :
  pool_members (bonding_manager st) = pre ++ x :: r -> x <> NULL_ADDRESS.
Proof.
  intros Hm. apply (pool_wf_not_null pre x r). rewrite <- Hm.
  by apply pool_inv_wf.
Qed.

(** One iteration that reads a member [x] and goes on. *)
Lemma pool_loop_step net fuel cur x ts w :
  net (length (calls w)) (getNextTranscoderInPool cur) = Returned x ->
  x <> NULL_ADDRESS ->
  pool_loop net (S fuel) cur ts w =
  pool_loop net fuel x (ts ++ [x]) (log_call (getNextTranscoderInPool cur) w).
Proof.
  intros Hc Hx. simpl.
  rewrite (run_bind_ret _ _ _ _ _ (run_contract_call_returned _ _ _ _ Hc)).
  by rewrite decide_False.
Qed.

(** The last iteration: the node answers the null address. *)
Lemma pool_loop_stop net fuel cur ts w :
  net (length (calls w)) (getNextTranscoderInPool cur) = Returned NULL_ADDRESS ->
  pool_loop net (S fuel) cur ts w = (log_call (getNextTranscoderInPool cur) w, Ret ts).
Proof.
  intros Hc. simpl.
  rewrite (run_bind_ret _ _ _ _ _ (run_contract_call_returned _ _ _ _ Hc)).
  by rewrite decide_True.
Qed.

(** One iteration whose call raises. *)
Lemma pool_loop_raise net fuel cur ts w e :
  net (length (calls w)) (getNextTranscoderInPool cur) = Raised e ->
  pool_loop net (S fuel) cur ts w = (log_call (getNextTranscoderInPool cur) w, Exc e).
Proof.
  intros Hc. simpl.
  by rewrite (run_bind_exc _ _ _ _ _ (run_contract_call_raised _ _ _ _ Hc)).
Qed.

(** The walk from [cur] through the rest [r] of the pool. *)
Lemma pool_loop_healthy r : forall pre cur ts w fuel,
  pool_members (bonding_manager st) = pre ++ cur :: r ->
  length r < fuel ->
  pool_loop (chain_network st) fuel cur ts w =
  (add_calls w (next_calls (cur :: r)), Ret (ts ++ r)).
Proof.
  induction r as [|x r IH]; intros pre cur ts w [|fuel] Hm Hf; simpl in Hf; try lia.
  - rewrite pool_loop_stop; [by rewrite app_nil_r|].
    by apply (chain_next_member pre cur []).
  - rewrite pool_loop_step with (x := x).
    2: by apply (chain_next_member pre cur (x :: r)).
    2: by apply (chain_member_not_null (pre ++ [cur]) x r); rewrite Hm, app_snoc_cons.
    rewrite (IH (pre ++ [cur])); [|by rewrite Hm, app_snoc_cons|lia].
    by rewrite add_calls_log, app_snoc_cons.
Qed.

End Loop.

Section Fault.
Context {P : Type} `{TranscoderPoolLaws P} (st : chain_state P).
Hypothesis Hinv : pool_inv (bonding_manager st).

(** The walk when the node fails its [k]-th call, [j] calls into the walk. *)
Lemma pool_loop_fault k e r : forall pre cur ts w fuel j,
  pool_members (bonding_manager st) = pre ++ cur :: r ->
  length r < fuel -> j <= length r -> k = length (calls w) + j ->
  pool_loop (inject_fault k e (chain_network st)) fuel cur ts w =
  (add_calls w (next_calls (take (S j) (cur :: r))), Exc e).
Proof.
  induction r as [|x r IH]; intros pre cur ts w [|fuel] [|j] Hm Hf Hj Hk;
    simpl in Hf, Hj; try lia.
  1,2: rewrite pool_loop_raise with (e := e); [done|];
    by rewrite Hk, Nat.add_0_r, inject_fault_at.
  rewrite pool_loop_step with (x := x).
  2: rewrite inject_fault_other by lia; by apply (chain_next_member st Hinv pre cur (x :: r)).
  2: by apply (chain_member_not_null st Hinv (pre ++ [cur]) x r); rewrite Hm, app_snoc_cons.
  rewrite (IH (pre ++ [cur]) _ _ _ _ j); [|by rewrite Hm, app_snoc_cons|lia|lia|].
  - by rewrite add_calls_log.
  - rewrite length_calls_log. lia.
Qed.

End Fault.

Lemma take_next_calls n l : take n (next_calls l) = next_calls (take n l).
Proof. unfold next_calls. by rewrite <- fmap_take. Qed.

(** The handler of lines 48-50 on an exception [e]. *)
Lemma run_pool_handler e w :
  (print ("An error occurred: " ^ str_exn e) ≫= fun _ => mret None) w =
  (log_line ("An error occurred: " ^ str_exn e) w, Ret (@None (list address))).
Proof. reflexivity. Qed.

Section Theorems.
Context {P : Type} `{TranscoderPoolLaws P} (st : chain_state P).
Hypothesis Hinv : pool_inv (bonding_manager st).

Lemma chain_first n :
  chain_network st n getFirstTranscoderInPool =
  Returned (first_in (pool_members (bonding_manager st))).
Proof. unfold chain_network, answer. by rewrite pool_first_spec. Qed.

(** The body of the [try] on a healthy node. *)
Lemma pool_walk_healthy l fuel w :
  pool_members (bonding_manager st) = l -> l <> [] -> length l <= fuel ->
  pool_walk (chain_network st) fuel w =
  (add_calls w (getFirstTranscoderInPool :: next_calls l), Ret (Some l)).
Proof.
  intros Hm Hne Hf. destruct l as [|x r]; [done|]. simpl in Hf. unfold pool_walk.
  rewrite (run_bind_ret _ _ _ _ _ (run_contract_call_returned _ _ _ _ (chain_first _))).
  rewrite Hm. simpl first_in.
  rewrite (run_bind_ret _ _ _ _ _ (pool_loop_healthy st Hinv r [] x [x] _ fuel Hm ltac:(lia))).
  by rewrite add_calls_log.
Qed.

(** The body of the [try] when the node fails its [j]-th call. *)
Lemma pool_walk_fault l fuel w j e :
  pool_members (bonding_manager st) = l -> l <> [] -> length l <= fuel -> j <= length l ->
  pool_walk (inject_fault (length (calls w) + j) e (chain_network st)) fuel w =
  (add_calls w (take (S j) (getFirstTranscoderInPool :: next_calls l)), Exc e).
Proof.
  intros Hm Hne Hf Hj. destruct l as [|x r]; [done|]. simpl in Hf, Hj. unfold pool_walk.
  destruct j as [|j].
  - apply run_bind_exc, run_contract_call_raised.
    rewrite Nat.add_0_r. apply inject_fault_at.
  - assert (Hfirst : inject_fault (length (calls w) + S j) e (chain_network st)
              (length (calls w)) getFirstTranscoderInPool = Returned x).
    { rewrite inject_fault_other by lia. by rewrite chain_first, Hm. }
    rewrite (run_bind_ret _ _ _ _ _ (run_contract_call_returned _ _ _ x Hfirst)).
    assert (Hk : length (calls w) + S j =
                 length (calls (log_call getFirstTranscoderInPool w)) + j)
      by (rewrite length_calls_log; lia).
    rewrite (run_bind_exc _ _ _ _ _
      (pool_loop_fault st Hinv _ e r [] x [x] _ fuel j Hm ltac:(lia) ltac:(lia) Hk)).
    rewrite add_calls_log. cbn [take]. by rewrite take_next_calls.
Qed.

(** The walk on a healthy node, followed by the rest [k] of its caller. *)
Lemma run_bind_pool_healthy {B} l fuel (k : option (list address) -> M world B) w :
  pool_members (bonding_manager st) = l -> l <> [] -> length l <= fuel ->
  (get_transcoder_pool (chain_network st) fuel ≫= k) w =
  k (Some l) (add_calls w (getFirstTranscoderInPool :: next_calls l)).
Proof.
  intros Hm Hne Hf. apply run_bind_ret, run_try_ret, pool_walk_healthy; done.
Qed.

(** The walk with its [j]-th call failing, followed by the rest [k] of its
    caller. *)
Lemma run_bind_pool_fault {B} l fuel w j e (k : option (list address) -> M world B) :
  pool_members (bonding_manager st) = l -> l <> [] -> length l <= fuel ->
  j <= length l ->
  (get_transcoder_pool (inject_fault (length (calls w) + j) e (chain_network st)) fuel ≫= k) w =
  k None (log_line ("An error occurred: " ^ str_exn e)
            (add_calls w (take (S j) (getFirstTranscoderInPool :: next_calls l)))).
Proof.
  intros Hm Hne Hf Hj. apply run_bind_ret. unfold get_transcoder_pool.
  rewrite (run_try_exc _ _ _ _ e (pool_walk_fault l fuel w j e Hm Hne Hf Hj)).
  apply run_pool_handler.
Qed.

(** C1: on a node that answers every call, for a pool of members [l]
    (non-empty), [get_transcoder_pool] returns exactly [l], in pool order,
    after [length l + 1] contract calls: [getFirstTranscoderInPool] and
    one [getNextTranscoderInPool] per member; nothing is printed.  The
    loop's fuel only has to cover the pool's size. *)
Theorem get_transcoder_pool_enumerates l fuel w :
  pool_members (bonding_manager st) = l -> l <> [] -> length l <= fuel ->
  get_transcoder_pool (chain_network st) fuel w =
  (add_calls w (getFirstTranscoderInPool :: next_calls l), Ret (Some l)).
Proof. intros Hm Hne Hf. apply run_try_ret, pool_walk_healthy; done. Qed.

(** C2: all or nothing.  When the node fails the [j]-th call of the walk
    ([j = 0] is [getFirstTranscoderInPool]; [j <= length l] covers every
    call the walk makes), [get_transcoder_pool] returns [None], prints one
    line [An error occurred: <e>], and makes no call after the failing
    one: no partial list reaches the caller. *)
Theorem get_transcoder_pool_fault l fuel w j e :
  pool_members (bonding_manager st) = l -> l <> [] -> length l <= fuel ->
  j <= length l ->
  get_transcoder_pool (inject_fault (length (calls w) + j) e (chain_network st)) fuel w =
  (log_line ("An error occurred: " ^ str_exn e)
     (add_calls w (take (S j) (getFirstTranscoderInPool :: next_calls l))),
   Ret None).
Proof.
  intros Hm Hne Hf Hj. unfold get_transcoder_pool.
  rewrite (run_try_exc _ _ _ _ e (pool_walk_fault l fuel w j e Hm Hne Hf Hj)).
  apply run_pool_handler.
Qed.

(** C6: on an empty pool ([getFirstTranscoderInPool] answers the null
    address) the function does not return an empty list: it asks for the
    member after the null address, gets the null address back, and
    returns the one-element list [[NULL_ADDRESS]]. *)
Theorem get_transcoder_pool_empty_pool fuel w :
  pool_members (bonding_manager st) = [] -> 1 <= fuel ->
  get_transcoder_pool (chain_network st) fuel w =
  (add_calls w [getFirstTranscoderInPool; getNextTranscoderInPool NULL_ADDRESS],
   Ret (Some [NULL_ADDRESS])).
Proof.
  intros Hm Hf. destruct fuel as [|fuel]; [lia|].
  apply run_try_ret. unfold pool_walk.
  rewrite (run_bind_ret _ _ _ _ _ (run_contract_call_returned _ _ _ _ (chain_first _))).
  rewrite Hm. simpl first_in.
  assert (Hn : chain_network st (length (calls (log_call getFirstTranscoderInPool w)))
                 (getNextTranscoderInPool NULL_ADDRESS) = Returned NULL_ADDRESS).
  { unfold chain_network, answer. by rewrite pool_next_spec, Hm. }
  rewrite (run_bind_ret _ _ _ _ _ (pool_loop_stop _ fuel _ [NULL_ADDRESS] _ Hn)).
  by rewrite run_ret, log_call_add, add_calls_log.
Qed.

End Theorems.

(** A node that never answers the null address to [getNextTranscoderInPool]
    keeps the loop running: every fuel is spent. *)
Lemma pool_loop_no_null net fuel cur ts w :
  (forall n b, exists c, net n (getNextTranscoderInPool b) = Returned c /\ c <> NULL_ADDRESS) ->
  (pool_loop net fuel cur ts w).2 = NoFuel.
Proof.
  intros Hnet. revert cur ts w.
  induction fuel as [|fuel IH]; intros cur ts w; [done|].
  destruct (Hnet (length (calls w)) cur) as [c [Hc Hnn]].
  rewrite (pool_loop_step net fuel cur c ts w Hc Hnn). apply IH.
Qed.

(** C7: the loop has no guard against a cycle in the pool: on a node whose
    [getNextTranscoderInPool] never answers the null address (a cyclic
    list), [get_transcoder_pool] does not return for any fuel, and no
    exception ends it. *)
Theorem get_transcoder_pool_cycle_diverges net fuel w a :
  net (length (calls w)) getFirstTranscoderInPool = Returned a ->
  (forall n b, exists c, net n (getNextTranscoderInPool b) = Returned c /\ c <> NULL_ADDRESS) ->
  (get_transcoder_pool net fuel w).2 = NoFuel.
Proof.
  intros Hfirst Hnet.
  pose proof (pool_loop_no_null net fuel a [a] (log_call getFirstTranscoderInPool w) Hnet) as Hn.
  destruct (pool_loop net fuel a [a] (log_call getFirstTranscoderInPool w)) as [w' o] eqn:E.
  simpl in Hn. subst o.
  unfold get_transcoder_pool. rewrite (run_try_nofuel _ _ _ w'); [done|]. unfold pool_walk.
  rewrite (run_bind_ret _ _ _ _ _ (run_contract_call_returned _ _ _ _ Hfirst)).
  by apply run_bind_nofuel.
Qed.

(** ** On any node

    The walk's shape does not depend on the node behaving: whatever the
    node answers or raises, each iteration makes exactly one call, and
    an address is appended only after the comparison with the null
    address. *)

Section AnyNode.
Context (net : network).

Lemma pool_loop_calls fuel : forall cur ts w,
  length (calls (pool_loop net fuel cur ts w).1) <= length (calls w) + fuel.
Proof.
  induction fuel as [|fuel IH]; intros cur ts w; cbn [pool_loop]; [simpl; lia|].
  rewrite run_bind. unfold contract_call at 1.
  destruct (net _ _) as [v|e]; cbn -[pool_loop log_call]; [|rewrite length_calls_log; lia].
  case_decide; cbn -[pool_loop log_call]; [rewrite length_calls_log; lia|].
  etransitivity; [apply IH|]. rewrite length_calls_log. lia.
Qed.

Lemma pool_loop_appends fuel : forall cur ts w w' l,
  pool_loop net fuel cur ts w = (w', Ret l) -> exists ext, l = ts ++ ext /\ NULL_ADDRESS ∉ ext.
Proof.
  induction fuel as [|fuel IH]; intros cur ts w w' l; cbn [pool_loop]; [done|].
  rewrite run_bind. unfold contract_call at 1.
  destruct (net _ _) as [v|e]; cbn -[pool_loop log_call]; [|done].
  case_decide as Hv; cbn -[pool_loop log_call].
  - intros [= _ <-]. exists []. split; [by rewrite app_nil_r | set_solver].
  - intros Hl. destruct (IH _ _ _ _ _ Hl) as (ext & -> & Hext).
    exists (v :: ext). split; [by rewrite <- app_assoc | set_solver].
Qed.

(** C15: a bound on the remote calls: with fuel [fuel], whatever the
    node answers or raises, one run of [get_transcoder_pool] makes at most
    [fuel + 1] contract calls ([getFirstTranscoderInPool] and one
    [getNextTranscoderInPool] per iteration); the handler makes none. *)
Theorem get_transcoder_pool_calls_bound fuel w :
  length (calls (get_transcoder_pool net fuel w).1) <= length (calls w) + S fuel.
Proof.
  unfold get_transcoder_pool, try_except, pool_walk. rewrite run_bind. unfold contract_call at 1.
  destruct (net _ _) as [a|e]; cbn -[pool_loop log_call].
  - pose proof (pool_loop_calls fuel a [a] (log_call getFirstTranscoderInPool w)) as Hb.
    rewrite length_calls_log in Hb.
    rewrite run_bind. destruct (pool_loop _ _ _ _ _) as [w' [l|e|]]; simpl in *; lia.
  - simpl. rewrite length_app. simpl. lia.
Qed.

(** C16: whatever the node answers, a list [get_transcoder_pool] returns
    starts with the answer to [getFirstTranscoderInPool] and holds the
    null address nowhere after it: every appended address passed the
    comparison of line 44. *)
Theorem get_transcoder_pool_no_null_after_first fuel w l :
  (get_transcoder_pool net fuel w).2 = Ret (Some l) ->
  exists first rest, l = first :: rest /\
    net (length (calls w)) getFirstTranscoderInPool = Returned first /\ NULL_ADDRESS ∉ rest.
Proof.
  unfold get_transcoder_pool, try_except, pool_walk. rewrite run_bind. unfold contract_call at 1.
  destruct (net _ _) as [a|e] eqn:Ha; cbn -[pool_loop log_call]; [|done].
  rewrite run_bind. destruct (pool_loop _ _ _ _ _) as [w' [l'|e|]] eqn:E; simpl; try done.
  intros [= <-]. destruct (pool_loop_appends fuel _ _ _ _ _ E) as (ext & -> & Hext).
  by exists a, ext.
Qed.

End AnyNode.

(** ** Witnesses *)

Lemma get_transcoder_pool_enumerates_witness :
  get_transcoder_pool (chain_network example_chain) 3 world0 =
  (add_calls world0 (getFirstTranscoderInPool :: next_calls example_pool),
   Ret (Some example_pool)).
Proof.
  apply (get_transcoder_pool_enumerates example_chain);
    [unfold pool_inv; simpl; split; decide_prop | reflexivity | discriminate | simpl; lia].
Defined.

Lemma get_transcoder_pool_fault_witness :
  get_transcoder_pool
    (inject_fault (length (calls world0) + 3) (RemoteError "503 Service Unavailable")
       (chain_network example_chain)) 3 world0 =
  (log_line ("An error occurred: " ^ str_exn (RemoteError "503 Service Unavailable"))
     (add_calls world0 (take 4 (getFirstTranscoderInPool :: next_calls example_pool))),
   Ret None).
Proof.
  apply (get_transcoder_pool_fault example_chain);
    [unfold pool_inv; simpl; split; decide_prop | reflexivity | discriminate | simpl; lia
    | simpl; lia].
Defined.

Lemma get_transcoder_pool_empty_pool_witness :
  get_transcoder_pool (chain_network {| bonding_manager := []; service_uris := ∅ |}) 5 world0 =
  (add_calls world0 [getFirstTranscoderInPool; getNextTranscoderInPool NULL_ADDRESS],
   Ret (Some [NULL_ADDRESS])).
Proof.
  apply (get_transcoder_pool_empty_pool {| bonding_manager := []; service_uris := ∅ |});
    [unfold pool_inv; simpl; split; decide_prop | reflexivity | lia].
Defined.

(** A node whose pool links "0xA1" to itself. *)
Definition self_loop_network : network := fun _ _ => Returned "0xA1".

Lemma get_transcoder_pool_cycle_diverges_witness :
  (get_transcoder_pool self_loop_network 1000 world0).2 = NoFuel.
Proof.
  apply (get_transcoder_pool_cycle_diverges self_loop_network 1000 world0 "0xA1");
    [reflexivity|].
  intros n b. exists "0xA1". split; [reflexivity | decide_prop].
Defined.

Lemma get_transcoder_pool_no_null_after_first_witness :
  (get_transcoder_pool (chain_network example_chain) 3 world0).2 = Ret (Some example_pool) /\
  exists first rest, example_pool = first :: rest /\
    chain_network example_chain (length (calls world0)) getFirstTranscoderInPool =
      Returned first /\ NULL_ADDRESS ∉ rest.
Proof.
  assert (H : (get_transcoder_pool (chain_network example_chain) 3 world0).2 =
              Ret (Some example_pool)) by (vm_compute; reflexivity).
  split; [exact H|].
  exact (get_transcoder_pool_no_null_after_first (chain_network example_chain) 3 world0
           example_pool H).
Defined.

