(* ===== verification/PoolChanges.v ===== *)
(** * The pool walk while the pool changes (src/get_ai_orchs.py, lines 37-51)

    The pool lives in the BondingManager contract and other transactions
    change it while the script runs: the spec calls it externally mutable
    and promises the exact pool only while it does not change.  Here the
    node answers each call from the chain state of its moment ([sts n]
    for the [n]-th call of the run), and the theorems say what
    [get_transcoder_pool] returns then:
    exactly the lists whose every link was a link of the pool at the
    moment it was read, ending where the pool of that moment had no
    successor (an equivalence, for every evolution and every fuel).  So a
    member that is in the pool at every moment can be missing from the
    result, which the script reports as a complete pool: when the member
    the walk stands on leaves, its successor is read as the null
    address. *)

From stdpp Require Import base list strings gmap.
From S2P Require Import Prelude Contracts PoolContract TranscoderPool.

Section Evolving.
Context {P : Type} `{TranscoderPool P} (sts : nat -> chain_state P).

(** The node of a chain whose state may change between calls: [sts n]
    answers the [n]-th call of the run. *)
Definition evolving_network : network := fun n c => Returned (answer (sts n) c).

(** [links_from k a rest]: read from the [k]-th call on, the member after
    [a] is the first of [rest], the one after it the second, and so on,
    each read from the pool of its own moment, until the pool of that
    moment has no member after the last one. *)
Fixpoint links_from (k : nat) (a : address) (rest : list address) : Prop :=
  match rest with
  | [] => pool_next (bonding_manager (sts k)) a = NULL_ADDRESS
  | b :: rest' =>
      pool_next (bonding_manager (sts k)) a = b /\ b <> NULL_ADDRESS /\ links_from (S k) b rest'
  end.

Lemma evolving_next k a :
  evolving_network k (getNextTranscoderInPool a) =
  Returned (pool_next (bonding_manager (sts k)) a).
Proof. reflexivity. Qed.

(** The loop from [cur] ends with [ts ++ rest] exactly when [rest] is the
    chain of links read from the current call on, within the fuel. *)
Lemma pool_loop_evolving fuel : forall cur ts w l,
  (pool_loop evolving_network fuel cur ts w).2 = Ret l <->
  exists rest, l = ts ++ rest /\ links_from (length (calls w)) cur rest /\ length rest < fuel.
Proof.
  induction fuel as [|fuel IH]; intros cur ts w l.
  { split; [done|]. intros (? & _ & _ & ?). lia. }
  destruct (decide (pool_next (bonding_manager (sts (length (calls w)))) cur = NULL_ADDRESS))
    as [Hb|Hb].
  - rewrite pool_loop_stop by (by rewrite evolving_next, Hb). split.
    + intros [= <-]. exists []. rewrite app_nil_r. simpl. split_and!; [done..|lia].
    + intros ([|x rest] & -> & Hl & _); [by rewrite app_nil_r|].
      destruct Hl as (Hx & Hxn & _). congruence.
  - rewrite (pool_loop_step _ _ _ _ _ _ (evolving_next _ _) Hb), IH, length_calls_log.
    split.
    + intros (rest & -> & Hl & Hf).
      exists (pool_next (bonding_manager (sts (length (calls w)))) cur :: rest).
      rewrite <- app_assoc. simpl. split_and!; [done..|lia].
    + intros ([|x rest] & -> & Hl & Hf); simpl in Hl; [done|].
      destruct Hl as (<- & _ & Hl). exists rest.
      rewrite <- app_assoc. simpl in Hf. split_and!; [done..|lia].
Qed.

End Evolving.

(** ** The walk *)

(** C19: whatever way the pool changes during the run, the walk with
    fuel [fuel] from a process that has made [k] calls returns [Some l]
    exactly when [l] starts with the first member of the pool at call [k]
    and each next element is the member after the previous one in the
    pool at the moment of its call, the last having no successor at its
    moment, within [fuel] iterations.  On a pool that does not change this
    is the pool itself (C1); otherwise the list mixes the pool's states. *)
Theorem get_transcoder_pool_changing_pool {P} `{TranscoderPool P}
    (sts : nat -> chain_state P) fuel w l :
  (get_transcoder_pool (evolving_network sts) fuel w).2 = Ret (Some l) <->
  exists rest,
    l = pool_first (bonding_manager (sts (length (calls w)))) :: rest /\
    links_from sts (S (length (calls w))) (pool_first (bonding_manager (sts (length (calls w)))))
      rest /\
    length rest < fuel.
Proof.
  unfold get_transcoder_pool, try_except, pool_walk. rewrite run_bind. cbn.
  set (a := pool_first _).
  pose proof (pool_loop_evolving sts fuel a [a]
                (log_call getFirstTranscoderInPool w)) as Hl.
  rewrite length_calls_log in Hl. rewrite run_bind.
  destruct (pool_loop _ _ _ _ _) as [w1 [r|e|]]; simpl in *.
  - split.
    + intros [= <-]. by apply Hl.
    + intros Hr. apply Hl in Hr. by injection Hr as ->.
  - split; [done|]. intros Hr. by apply Hl in Hr.
  - split; [done|]. intros Hr. by apply Hl in Hr.
Qed.

(** ** A member that stays in the pool and is missed *)

