(* ===== verification/ServiceUris.v ===== *)
(** * [get_ai_orchestrators_uris] (src/get_ai_orchs.py, lines 54-74)

    One [getServiceURI] call per orchestrator, each inside its own [try]:
    a non-empty URI is stored in the dict and printed, an empty one is
    skipped silently, an exception is printed and the loop goes on.

    The reference ([lookups], [resolved], [lookup_lines]) reads the replies
    of the node in call order and keeps the non-empty URIs; [uris_loop_spec]
    shows the loop computes exactly that, for any node.  The theorems:
    - the result is a well-formed dict with no empty URI, whatever the node
      does, and the function never raises;
    - on a node that answers per address, the dict lists the orchestrators
      with a non-empty URI, in input order;
    - one failed lookup removes only that orchestrator's entry: the others
      are kept, and every orchestrator is still looked up.
    The loop and its body are [Proper] in the node. *)

From stdpp Require Import base list strings gmap.
From S2P Require Import Prelude PyDict Contracts PoolContract.

Section GetUris.
Context (net : network).

(** Lines 66-73: the body of the [for] loop. *)
Definition uri_step (ai_orchestrators_uris : pydict address string)
    (orchestrator : address) : M world (pydict address string) :=
  try_except
    (ai_orchestrator_uri ← contract_call net (getServiceURI orchestrator);
     if truthy ai_orchestrator_uri then
       let d := setitem orchestrator ai_orchestrator_uri ai_orchestrators_uris in
       print ("Orchestrator: " ^ orchestrator ^ ", AI Orchestrator URI: "
              ^ ai_orchestrator_uri);;
       mret d
     else mret ai_orchestrators_uris)
    (fun e => print ("An error occurred: " ^ str_exn e);; mret ai_orchestrators_uris).

(** Line 65: [for orchestrator in orchestrators:] *)
Fixpoint uris_loop (orchestrators : list address)
    (ai_orchestrators_uris : pydict address string) : M world (pydict address string) :=
  match orchestrators with
  | [] => mret ai_orchestrators_uris
  | o :: rest => d ← uri_step ai_orchestrators_uris o; uris_loop rest d
  end.

(** Lines 64-74. *)
Definition get_ai_orchestrators_uris (orchestrators : list address)
    : M world (pydict address string) :=
  uris_loop orchestrators pydict_empty.

End GetUris.

(** ** The lookups depend only on the node's answers *)

#[export] Instance uri_step_proper : Proper ((≡) ==> (=) ==> (=) ==> (≡)) uri_step.
Proof. intros n1 n2 Hn d ? <- o ? <-. unfold uri_step. by setoid_rewrite Hn. Qed.

#[export] Instance uris_loop_proper : Proper ((≡) ==> (=) ==> (=) ==> (≡)) uris_loop.
Proof.
  intros n1 n2 Hn os ? <-. induction os as [|o os IH]; intros d ? <-; [done|].
  simpl. apply M_bind_proper; [intros d'; by apply IH | by rewrite Hn].
Qed.

#[export] Instance get_ai_orchestrators_uris_proper :
  Proper ((≡) ==> (=) ==> (≡)) get_ai_orchestrators_uris.
Proof. intros n1 n2 Hn os ? <-. unfold get_ai_orchestrators_uris. by rewrite Hn. Qed.

(** ** The reference *)

(** The replies of the node to the lookups of [os], the first at call
    index [n]. *)
Fixpoint lookups (net : network) (n : nat) (os : list address) : list (address * reply) :=
  match os with
  | [] => []
  | o :: os' => (o, net n (getServiceURI o)) :: lookups net (S n) os'
  end.

Definition resolve_entry (o : address) (r : reply) : option (address * string) :=
  match r with
  | Returned u => if truthy u then Some (o, u) else None
  | Raised _ => None
  end.

(** The entries the lookups produce, in order. *)
Definition resolved (rs : list (address * reply)) : list (address * string) :=
  omap (fun p => resolve_entry p.1 p.2) rs.

(** The lines the lookups print, in order. *)
Definition lookup_line (o : address) (r : reply) : list string :=
  match r with
  | Returned u =>
      if truthy u then ["Orchestrator: " ^ o ^ ", AI Orchestrator URI: " ^ u] else []
  | Raised e => ["An error occurred: " ^ str_exn e]
  end.

Definition lookup_lines (rs : list (address * reply)) : list string :=
  concat (map (fun p => lookup_line p.1 p.2) rs).

(** The world after the calls [cs] and the printed lines [ls]. *)
Definition after (w : world) (cs : list call) (ls : list string) : world :=
  mk_world (calls w ++ cs) (stdout w ++ ls) (files w) (dirs w).

Lemma after_after w cs ls cs' ls' :
  after (after w cs ls) cs' ls' = after w (cs ++ cs') (ls ++ ls').
Proof. unfold after. simpl. by rewrite !app_assoc. Qed.

Lemma calls_after w cs ls : calls (after w cs ls) = calls w ++ cs.
Proof. reflexivity. Qed.

Lemma after_nil w : after w [] [] = w.
Proof. destruct w. unfold after. simpl. by rewrite !app_nil_r. Qed.

Lemma after_call_silent w c : after w [c] [] = log_call c w.
Proof. unfold after, log_call. by rewrite app_nil_r. Qed.

(** ** The loop computes the reference *)

Lemma uri_step_spec net d o w :
  uri_step net d o w =
  (after w [getServiceURI o] (lookup_line o (net (length (calls w)) (getServiceURI o))),
   Ret (setitems (resolved [(o, net (length (calls w)) (getServiceURI o))]) d)).
Proof.
  unfold uri_step. destruct (net (length (calls w)) (getServiceURI o)) as [u|e] eqn:Hr.
  - apply run_try_ret.
    rewrite (run_bind_ret _ _ _ _ _ (run_contract_call_returned _ _ _ _ Hr)).
    unfold resolved, resolve_entry, lookup_line. simpl.
    destruct (truthy u); [reflexivity|]. by rewrite after_call_silent.
  - rewrite (run_try_exc _ _ _ (log_call (getServiceURI o) w) e); [reflexivity|].
    by rewrite (run_bind_exc _ _ _ _ _ (run_contract_call_raised _ _ _ _ Hr)).
Qed.

Lemma resolved_cons p rs : resolved (p :: rs) = resolved [p] ++ resolved rs.
Proof. unfold resolved. simpl. by destruct (resolve_entry _ _). Qed.

Lemma lookup_lines_cons p rs : lookup_lines (p :: rs) = lookup_line p.1 p.2 ++ lookup_lines rs.
Proof. reflexivity. Qed.

(** The loop performs one lookup per orchestrator, in order, prints the
    lines of the reference and returns the dict of the reference. *)
Lemma uris_loop_spec net os : forall d w,
  uris_loop net os d w =
  (after w (map getServiceURI os) (lookup_lines (lookups net (length (calls w)) os)),
   Ret (setitems (resolved (lookups net (length (calls w)) os)) d)).
Proof.
  induction os as [|o os IH]; intros d w; cbn [uris_loop lookups map].
  - by rewrite run_ret, after_nil.
  - rewrite (run_bind_ret _ _ _ _ _ (uri_step_spec net d o w)), IH.
    rewrite calls_after, length_app, Nat.add_1_r, after_after.
    by rewrite (resolved_cons _ (lookups _ _ _)), setitems_app, lookup_lines_cons.
Qed.

(** ** Lemmas on the reference *)

Lemma resolved_nonempty rs : Forall (fun kv => kv.2 <> "") (resolved rs).
Proof.
  induction rs as [|[o r] rs IH]; [constructor|].
  rewrite resolved_cons. apply Forall_app. split; [|done].
  destruct r as [u|e]; unfold resolved, resolve_entry; simpl; [|constructor].
  destruct (truthy u) eqn:Ht; simpl; constructor; [|constructor].
  by apply truthy_iff.
Qed.

Lemma resolved_keys_sublist rs : keys (resolved rs) `sublist_of` map fst rs.
Proof.
  induction rs as [|[o r] rs IH]; [constructor|].
  rewrite resolved_cons. simpl.
  destruct r as [u|e]; unfold resolved at 1, resolve_entry; simpl;
    [destruct (truthy u); simpl|]; by constructor.
Qed.

Lemma lookups_keys net n os : map fst (lookups net n os) = os.
Proof. revert n. induction os as [|o os IH]; intros n; simpl; [done|]. by rewrite IH. Qed.

(** The reference dict is the list of entries itself when the looked-up
    addresses are distinct. *)
Lemma setitems_resolved rs :
  NoDup (map fst rs) -> setitems (resolved rs) pydict_empty = resolved rs.
Proof.
  intros Hnd. apply setitems_fresh. simpl.
  eapply sublist_NoDup; [exact Hnd|]. apply resolved_keys_sublist.
Qed.

(** C4: whatever the node answers or raises, [get_ai_orchestrators_uris]
    returns normally (every exception is caught per orchestrator), and its
    dict has no key twice and no empty URI. *)
Theorem get_ai_orchestrators_uris_no_empty net os w :
  exists w' d, get_ai_orchestrators_uris net os w = (w', Ret d) /\
    dict_wf d /\ forall k v, (k, v) ∈ items d -> v <> "".
Proof.
  eexists _, _. split; [apply uris_loop_spec|]. split.
  - apply dict_wf_setitems. constructor.
  - intros k v Hin.
    refine (setitems_values (K:=address) (fun v => v <> "") _ _ _
              (resolved_nonempty _) (k, v) Hin).
    intros kv Hkv. by apply elem_of_nil in Hkv.
Qed.

(** ** A node that answers per address *)

(** The spec's mapping: the orchestrators whose URI is non-empty, in input
    order, with their URI. *)
Definition uri_entries (resolve : address -> reply) (os : list address)
    : list (address * string) :=
  omap (fun o => resolve_entry o (resolve o)) os.

Lemma lookups_inject_before net k e n os :
  k < n -> lookups (inject_fault k e net) n os = lookups net n os.
Proof.
  revert n. induction os as [|o os IH]; intros n Hk; simpl; [done|].
  rewrite inject_fault_other by lia. by rewrite IH by lia.
Qed.

Section PerAddress.
Context (net : network) (resolve : address -> reply).
Hypothesis Hres : forall n o, net n (getServiceURI o) = resolve o.

Lemma lookups_stateless n os : lookups net n os = map (fun o => (o, resolve o)) os.
Proof. revert n. induction os as [|o os IH]; intros n; simpl; [done|]. by rewrite Hres, IH. Qed.

Lemma resolved_stateless os :
  resolved (map (fun o => (o, resolve o)) os) = uri_entries resolve os.
Proof.
  induction os as [|o os IH]; [done|].
  cbn [map]. rewrite resolved_cons, IH. unfold uri_entries, resolved. simpl.
  by destruct (resolve_entry o (resolve o)).
Qed.

(** The loop of lines 65-73 from the empty dict, every lookup answered by
    [resolve]. *)
Lemma uris_loop_entries os w :
  NoDup os ->
  uris_loop net os pydict_empty w =
  (after w (map getServiceURI os) (lookup_lines (map (fun o => (o, resolve o)) os)),
   Ret (uri_entries resolve os)).
Proof.
  intros Hnd. rewrite uris_loop_spec, lookups_stateless.
  rewrite setitems_resolved, resolved_stateless; [done|].
  by rewrite <- (lookups_stateless 0), lookups_keys.
Qed.

(** The function with every lookup answered by [resolve], followed by the
    rest [k] of its caller. *)
Lemma run_bind_uris_entries {B} os (k : pydict address string -> M world B) w :
  NoDup os ->
  (get_ai_orchestrators_uris net os ≫= k) w =
  k (uri_entries resolve os)
    (after w (map getServiceURI os) (lookup_lines (map (fun o => (o, resolve o)) os))).
Proof. intros Hnd. apply run_bind_ret, uris_loop_entries, Hnd. Qed.

(** C3: on a node whose answer depends only on the address, and for
    distinct orchestrators, [get_ai_orchestrators_uris] looks every
    orchestrator up once, in order, and its dict is exactly the
    orchestrators with a non-empty URI, each with its URI, in input
    order; it prints one line per stored entry and one per exception. *)
Theorem get_ai_orchestrators_uris_entries os w :
  NoDup os ->
  get_ai_orchestrators_uris net os w =
  (after w (map getServiceURI os) (lookup_lines (map (fun o => (o, resolve o)) os)),
   Ret (uri_entries resolve os)).
Proof. intros Hnd. apply uris_loop_entries, Hnd. Qed.

Lemma resolved_inject e os : forall j n,
  j < length os ->
  resolved (lookups (inject_fault (n + j) e net) n os) = uri_entries resolve (delete j os).
Proof.
  induction os as [|o os IH]; intros [|j] n Hj; simpl in Hj; try lia; cbn [lookups].
  - rewrite Nat.add_0_r, inject_fault_at, (resolved_cons _ (lookups _ _ _)).
    rewrite lookups_inject_before, lookups_stateless, resolved_stateless by lia.
    reflexivity.
  - rewrite inject_fault_other by lia.
    replace (n + S j) with (S n + j) by lia.
    rewrite (resolved_cons _ (lookups _ _ _)), IH by lia.
    rewrite Hres. unfold uri_entries, resolved. simpl.
    by destruct (resolve_entry o (resolve o)).
Qed.

(** C5: failures are isolated.  When the lookup of the [j]-th
    orchestrator fails, the dict is the one of the other orchestrators
    (exactly the entries they would give without the failure, in input
    order), and the loop still looks up every orchestrator after it. *)
Theorem get_ai_orchestrators_uris_fault_isolated os w j e :
  NoDup os -> j < length os ->
  exists w',
    get_ai_orchestrators_uris (inject_fault (length (calls w) + j) e net) os w =
    (w', Ret (uri_entries resolve (delete j os))) /\
    calls w' = calls w ++ map getServiceURI os.
Proof.
  intros Hnd Hj. eexists. split; [|apply calls_after].
  unfold get_ai_orchestrators_uris. rewrite uris_loop_spec.
  rewrite setitems_resolved; [rewrite resolved_inject by done; reflexivity|].
  by rewrite lookups_keys.
Qed.

End PerAddress.

(** ** Witnesses *)

Definition example_resolve (o : address) : reply :=
  Returned (answer example_chain (getServiceURI o)).

Lemma get_ai_orchestrators_uris_entries_witness :
  get_ai_orchestrators_uris (chain_network example_chain) example_pool world0 =
  (after world0 (map getServiceURI example_pool)
     ["Orchestrator: 0xB2, AI Orchestrator URI: https://b2.example:8935"],
   Ret [("0xB2", "https://b2.example:8935")]).
Proof.
  rewrite (get_ai_orchestrators_uris_entries _ example_resolve); [reflexivity| |].
  - intros n o. reflexivity.
  - decide_prop.
Defined.

Lemma get_ai_orchestrators_uris_fault_isolated_witness :
  exists w',
    get_ai_orchestrators_uris
      (inject_fault (length (calls world0) + 0) (RemoteError "timeout")
         (chain_network example_chain)) example_pool world0 =
    (w', Ret [("0xB2", "https://b2.example:8935")]) /\
    calls w' = calls world0 ++ map getServiceURI example_pool.
Proof.
  apply (get_ai_orchestrators_uris_fault_isolated _ example_resolve);
    [intros n o; reflexivity | decide_prop | simpl; lia].
Defined.
