(* ===== verification/OrchsMain.v ===== *)
(** * The main block of src/get_ai_orchs.py (lines 89-105)

    The script's entry point: walk the pool, write one address per line to
    [output/main_orchestrators.txt], look up every address's service URI,
    write [address URI] lines to [output/ai_orchestrators.txt] and print
    the count.  Files are the [files] map of the world: [open(path, "w")]
    truncates (and needs the parent directory, else [FileNotFoundError]),
    [f.write(s)] appends.  The set-up before it (lines 79-87) is
    [main_setup] in [OrchsInit]; here the node reached through the two
    contract objects is the [network] parameter, and [main] is [Proper]
    in it.

    The lemmas: on a healthy chain both files hold exactly the expected
    lines and the last line printed is the count; when the pool walk
    fails, the main block raises [TypeError] after truncating
    [main_orchestrators.txt], before any URI lookup.  The script-level
    theorems C8 and C9 ([OrchsInit]) compose them with the module body. *)

From stdpp Require Import base list strings gmap pretty.
From Stdlib Require Import Ascii.
From S2P Require Import Prelude PyDict Contracts PoolContract TranscoderPool ServiceUris.

(** ** Paths and files *)

(** Line 24. *)
Definition OUTPUT_DIR : string := "output".

Fixpoint ends_with_slash (s : string) : bool :=
  match s with
  | EmptyString => false
  | String c EmptyString => bool_decide (c = "/"%char)
  | String _ rest => ends_with_slash rest
  end.

(** [os.path.join(a, b)] (posixpath.join, two arguments). *)
Definition path_join (a b : string) : string :=
  match b with
  | String "/" _ => b
  | _ => if bool_decide (a = "") || ends_with_slash a then a ^ b else a ^ "/" ^ b
  end.

Fixpoint has_slash (s : string) : bool :=
  match s with
  | EmptyString => false
  | String c rest => bool_decide (c = "/"%char) || has_slash rest
  end.

(** [os.path.dirname(p)]: the text before the last ["/"] ([""] if none). *)
Fixpoint dirname (p : string) : string :=
  match p with
  | EmptyString => ""
  | String c rest => if has_slash rest then String c (dirname rest) else ""
  end.

Definition set_file (p c : string) (w : world) : world :=
  mk_world (calls w) (stdout w) (<[p:=c]> (files w)) (dirs w).

(** [open(p, "w")]: truncate or create [p]; the directory must exist. *)
Definition open_w (p : string) : M world unit := fun w =>
  let d := dirname p in
  if bool_decide (d = "") || bool_decide (d ∈ dirs w) then (set_file p "" w, Ret tt)
  else (w, Exc (FileNotFoundError p)).

(** [f.write(s)] on the file [p] opened for writing. *)
Definition file_write (p s : string) : M world unit := fun w =>
  (set_file p (default "" (files w !! p) ^ s) w, Ret tt).

(** [for x in v:] where [v] may be [None]. *)
Definition py_iter {A} (v : option (list A)) : M world (list A) :=
  match v with
  | Some l => mret l
  | None => raise (TypeError "'NoneType' object is not iterable")
  end.

(** ** The main block *)

Definition main_orchestrators_path : string :=
  path_join OUTPUT_DIR "main_orchestrators.txt".
Definition ai_orchestrators_path : string :=
  path_join OUTPUT_DIR "ai_orchestrators.txt".

(** [f"{orchestrator}\n"] and [f"{orchestrator} {ai_orchestrator}\n"]. *)
Definition orchestrator_line (o : address) : string := o ^ newline.
Definition ai_orchestrator_line (kv : address * string) : string :=
  kv.1 ^ " " ^ kv.2 ^ newline.

Section Main.
Context (net : network).

(** Lines 89-105; [fuel] bounds the pool walk's loop. *)
Definition main (fuel : nat) : M world unit :=
  print "Fetching mainnet Orchestrators...";;
  orchestrators ← get_transcoder_pool net fuel;
  print ("Store the mainnet Orchestrators in " ^ OUTPUT_DIR ^ "/main_orchestrators.txt");;
  open_w main_orchestrators_path;;
  os ← py_iter orchestrators;
  for_each os (fun o => file_write main_orchestrators_path (orchestrator_line o));;
  print "Fetching AI Orchestrators...";;
  ai_orchestrators_uris ← get_ai_orchestrators_uris net os;
  print ("Store the AI Orchestrators in " ^ OUTPUT_DIR ^ "/ai_orchestrators.txt");;
  open_w ai_orchestrators_path;;
  for_each (items ai_orchestrators_uris)
    (fun kv => file_write ai_orchestrators_path (ai_orchestrator_line kv));;
  print ("Total number of AI Orchestrators: "
         ^ pretty (N.of_nat (len ai_orchestrators_uris))).

End Main.

(** The main block depends only on the node's answers. *)
#[export] Instance main_proper : Proper ((≡) ==> (=) ==> (≡)) main.
Proof. intros n1 n2 Hn fuel ? <-. unfold main. by setoid_rewrite Hn. Qed.

(** ** Lemmas on files *)

Lemma run_open_w p w :
  dirname p ∈ dirs w -> open_w p w = (set_file p "" w, Ret tt).
Proof.
  intros Hd. unfold open_w. rewrite (bool_decide_eq_true_2 (dirname p ∈ dirs w)) by done.
  by rewrite orb_true_r.
Qed.

Lemma run_bind_open_w {A} p (f : unit -> M world A) w :
  dirname p ∈ dirs w -> (open_w p ≫= f) w = f tt (set_file p "" w).
Proof. intros Hd. apply run_bind_ret, run_open_w, Hd. Qed.

Lemma py_iter_Some {A} (l : list A) : py_iter (Some l) = mret l.
Proof. reflexivity. Qed.

Lemma set_file_set_file p c c' w : set_file p c (set_file p c' w) = set_file p c w.
Proof. unfold set_file. simpl. by rewrite insert_insert_eq. Qed.

Lemma run_write_lines {A} p (f : A -> string) xs : forall w s,
  files w !! p = Some s ->
  for_each xs (fun x => file_write p (f x)) w =
  (set_file p (s ^ str_join (map f xs)) w, Ret tt).
Proof.
  induction xs as [|x xs IH]; intros w s Hs; simpl.
  - rewrite run_ret, str_app_nil_r. destruct w as [c o fs ds]. unfold set_file. simpl in *.
    by rewrite insert_id.
  - rewrite run_bind. unfold file_write at 1. rewrite Hs. simpl.
    rewrite (IH _ (s ^ f x)).
    + by rewrite set_file_set_file, str_app_assoc.
    + simpl. apply lookup_insert_eq.
Qed.

Lemma OUTPUT_DIR_paths :
  dirname main_orchestrators_path = OUTPUT_DIR /\ dirname ai_orchestrators_path = OUTPUT_DIR.
Proof. split; reflexivity. Qed.

Lemma main_ai_paths_ne : main_orchestrators_path <> ai_orchestrators_path.
Proof. vm_compute. discriminate. Qed.

(** ** The main block on a healthy chain *)

Section Healthy.
Context {P : Type} `{TranscoderPoolLaws P} (st : chain_state P).
Hypothesis Hinv : pool_inv (bonding_manager st).

(** The registry's answer to [getServiceURI o]. *)
Definition registry_resolve (o : address) : reply :=
  Returned (answer st (getServiceURI o)).

(** On a healthy chain with a non-empty pool [l], enough fuel and an
    existing [output] directory, the main block ends normally; it makes
    the calls of the pool walk and then one [getServiceURI] per member;
    [main_orchestrators.txt] holds one line per member, in pool order;
    [ai_orchestrators.txt] holds one [address URI] line per member with a
    non-empty URI, in pool order; and the last line printed is the number
    of those members. *)
Lemma main_healthy l fuel w :
  pool_members (bonding_manager st) = l -> l <> [] -> length l <= fuel ->
  OUTPUT_DIR ∈ dirs w ->
  exists w', main (chain_network st) fuel w = (w', Ret tt) /\
    calls w' = calls w ++ getFirstTranscoderInPool :: next_calls l
               ++ map getServiceURI l /\
    files w' !! main_orchestrators_path = Some (str_join (map orchestrator_line l)) /\
    files w' !! ai_orchestrators_path =
      Some (str_join (map ai_orchestrator_line (uri_entries registry_resolve l))) /\
    last (stdout w') = Some ("Total number of AI Orchestrators: "
                             ^ pretty (N.of_nat (length (uri_entries registry_resolve l)))).
Proof.
  intros Hm Hne Hf Hout.
  assert (Hnd : NoDup l) by (rewrite <- Hm; apply (pool_inv_wf _ Hinv)).
  destruct OUTPUT_DIR_paths as [Hd1 Hd2].
  eexists. split; [|split_and!].
  - unfold main.
    rewrite (run_bind_ret _ _ _ _ _ (run_print _ _)).
    rewrite (run_bind_pool_healthy st Hinv l fuel _ _ Hm Hne Hf).
    rewrite (run_bind_ret _ _ _ _ _ (run_print _ _)).
    rewrite run_bind_open_w by exact Hout.
    rewrite py_iter_Some, bind_ret_l.
    rewrite (run_bind_ret _ _ _ _ _ (run_write_lines _ _ _ _ _ (lookup_insert_eq _ _ _))).
    rewrite (run_bind_ret _ _ _ _ _ (run_print _ _)).
    rewrite (run_bind_uris_entries _ registry_resolve (fun _ _ => eq_refl) l _ _ Hnd).
    rewrite (run_bind_ret _ _ _ _ _ (run_print _ _)).
    rewrite run_bind_open_w by exact Hout.
    rewrite (run_bind_ret _ _ _ _ _ (run_write_lines _ _ _ _ _ (lookup_insert_eq _ _ _))).
    rewrite run_print. reflexivity.
  - simpl. by rewrite <- !app_assoc.
  - simpl. rewrite !lookup_insert_ne by (apply not_eq_sym, main_ai_paths_ne).
    by rewrite lookup_insert_eq.
  - simpl. by rewrite lookup_insert_eq.
  - simpl. by rewrite last_snoc.
Qed.

End Healthy.

Lemma run_bind_py_iter_None {A B} (f : list A -> M world B) w :
  (py_iter None ≫= f) w = (w, Exc (TypeError "'NoneType' object is not iterable")).
Proof. reflexivity. Qed.

(** ** The main block when the pool walk fails *)

Section PoolFault.
Context {P : Type} `{TranscoderPoolLaws P} (st : chain_state P).
Hypothesis Hinv : pool_inv (bonding_manager st).

(** [get_transcoder_pool] reports a failure by returning [None],
    and the main block does not check for it: when any call of the pool
    walk fails, the block prints the error, truncates
    [main_orchestrators.txt] (its previous content is lost), then raises
    [TypeError] at [for orchestrator in orchestrators]; no URI is looked
    up and [ai_orchestrators.txt] is left as it was. *)
Lemma main_pool_fault_crashes l fuel w j e :
  pool_members (bonding_manager st) = l -> l <> [] -> length l <= fuel ->
  j <= length l -> OUTPUT_DIR ∈ dirs w ->
  exists w',
    main (inject_fault (length (calls w) + j) e (chain_network st)) fuel w =
    (w', Exc (TypeError "'NoneType' object is not iterable")) /\
    files w' = <[main_orchestrators_path := ""]> (files w) /\
    calls w' = calls w ++ take (S j) (getFirstTranscoderInPool :: next_calls l) /\
    stdout w' = stdout w ++ ["Fetching mainnet Orchestrators...";
                             "An error occurred: " ^ str_exn e;
                             "Store the mainnet Orchestrators in output/main_orchestrators.txt"].
Proof.
  intros Hm Hne Hf Hj Hout.
  eexists. split; [|split_and!].
  - unfold main.
    rewrite (run_bind_ret _ _ _ _ _ (run_print _ _)).
    rewrite (run_bind_pool_fault st Hinv l fuel (log_line "Fetching mainnet Orchestrators..." w)
               j e _ Hm Hne Hf Hj).
    rewrite (run_bind_ret _ _ _ _ _ (run_print _ _)).
    rewrite run_bind_open_w by exact Hout.
    rewrite run_bind_py_iter_None. reflexivity.
  - reflexivity.
  - reflexivity.
  - simpl. by rewrite <- !app_assoc.
Qed.

End PoolFault.
