(* ===== verification/PyFloat.v ===== *)
(** * Python numbers: [float(str)], [int + float] and [sum]

    src/get_ai_fees.py sums [float(event["faceValue"])] per broadcaster
    with [sum([...])] and accumulates the per-broadcaster sums into
    totals that start as the [int] 0.  This file models the three Python
    operations involved, on IEEE-754 binary64 ([PrimFloat.float], computed
    by the kernel):
    - [parse_float]: [float(s)] for a [str], correctly rounded (CPython
      uses David Gay's correctly rounded [strtod]); the rounding is
      SpecFloat's [binary_normalize] and [SFdiv] on the exact decimal
      value [M * 10^E], with overflow to infinity;
    - [pynum] and [py_add]: Python's [int] and [float] under [+]; an [int]
      operand is converted with correct rounding, and [OverflowError] is
      raised for an [int] beyond the float range;
    - [py_sum]: the builtin [sum(xs)] of a list of floats with the default
      start [0]: a plain left-to-right sum up to Python 3.11, Neumaier's
      compensated sum from Python 3.12 on ([py_version]).  The empty sum
      is the [int] 0. *)

From Stdlib Require Import ZArith Ascii Floats.
From stdpp Require Import base list strings.
From S2P Require Import Prelude.

(** ** Python numbers *)

Inductive pynum :=
| PInt (z : Z)
| PFloat (f : float).

(** [float(z)] for an [int]: correctly rounded, [None] where Python raises
    [OverflowError]. *)
Definition int_to_float (z : Z) : option float :=
  let f := FloatOps.SF2Prim (SpecFloat.binary_normalize FloatOps.prec FloatOps.emax z 0 false) in
  if PrimFloat.is_infinity f then None else Some f.

(** [a + b] *)
Definition py_add (a b : pynum) : option pynum :=
  match a, b with
  | PInt x, PInt y => Some (PInt (x + y))
  | PInt x, PFloat g => f ← int_to_float x; Some (PFloat (PrimFloat.add f g))
  | PFloat f, PInt y => g ← int_to_float y; Some (PFloat (PrimFloat.add f g))
  | PFloat f, PFloat g => Some (PFloat (PrimFloat.add f g))
  end.

(** ** [float(s)] *)

Definition digit_value (c : ascii) : option Z :=
  let n := Ascii.nat_of_ascii c in
  if decide (48 <= n <= 57)%nat then Some (Z.of_nat n - 48)%Z else None.

Definition is_digit (c : ascii) : bool := bool_decide (is_Some (digit_value c)).

(** Whitespace [float()] strips: ASCII space, [\t\n\v\f\r] and the
    separators [\x1c]-[\x1f], which Python counts as whitespace. *)
Definition is_py_space (c : ascii) : bool :=
  let n := Ascii.nat_of_ascii c in
  bool_decide (n = 32 \/ (9 <= n <= 13) \/ (28 <= n <= 31))%nat.

(** [digitpart ::= digit (["_"] digit)*]: the digits read, their count and
    the rest.  An underscore is consumed only between two digits. *)
Fixpoint digitpart (cs : list ascii) (acc : Z) (n : nat) : Z * nat * list ascii :=
  match cs with
  | [] => (acc, n, [])
  | c :: cs' =>
      match digit_value c with
      | Some d => digitpart cs' (acc * 10 + d)%Z (S n)
      | None =>
          match c, cs' with
          | "_"%char, c2 :: _ =>
              if (0 <? n)%nat && is_digit c2 then digitpart cs' acc n else (acc, n, cs)
          | _, _ => (acc, n, cs)
          end
      end
  end.

(** The value of [[sign] digits] of an exponent; [None] if no digit. *)
Definition parse_exponent (cs : list ascii) : option (Z * list ascii) :=
  let '(neg, cs1) := match cs with
                     | "-"%char :: r => (true, r)
                     | "+"%char :: r => (false, r)
                     | _ => (false, cs)
                     end in
  let '(v, n, rest) := digitpart cs1 0 0 in
  if (n =? 0)%nat then None else Some (if neg then (- v)%Z else v, rest).

(** [number [exponent]]: the digits as one integer [M] and the decimal
    exponent [E] of the value [M * 10^E]. *)
Definition parse_decimal (cs : list ascii) : option (Z * Z * list ascii) :=
  let '(ip, ni, r1) := digitpart cs 0 0 in
  let '(m, nf, r2) := match r1 with
                      | "."%char :: r => digitpart r ip 0
                      | _ => (ip, 0%nat, r1)
                      end in
  if (ni + nf =? 0)%nat then None else
  match r2 with
  | ("e" | "E")%char :: r =>
      '(e, r3) ← parse_exponent r; Some (m, e - Z.of_nat nf, r3)
  | _ => Some (m, - Z.of_nat nf, r2)
  end%Z.

(** The binary64 value nearest to [(-1)^neg * m * 10^e] (ties to even). *)
Definition round_decimal (neg : bool) (m e : Z) : float :=
  match m with
  | Z0 => if neg then PrimFloat.neg_zero else PrimFloat.zero
  | Zpos mp =>
      FloatOps.SF2Prim
        (if (0 <=? e)%Z
         then SpecFloat.binary_normalize FloatOps.prec FloatOps.emax
                ((if neg then Z.neg mp else Z.pos mp) * 10 ^ e)%Z 0 false
         else match (10 ^ (- e))%Z with
              | Zpos d => SpecFloat.SFdiv FloatOps.prec FloatOps.emax
                            (SpecFloat.S754_finite neg mp 0) (SpecFloat.S754_finite false d 0)
              | _ => SpecFloat.S754_nan
              end)
  | Zneg _ => PrimFloat.nan
  end.

Definition ascii_lower_c (c : ascii) : ascii :=
  let n := Ascii.nat_of_ascii c in
  if decide (65 <= n <= 90)%nat then Ascii.ascii_of_nat (n + 32) else c.

(** [inf], [infinity], [nan], in any case. *)
Definition parse_special (cs : list ascii) : option float :=
  match String.string_of_list_ascii (map ascii_lower_c cs) with
  | "inf" | "infinity" => Some PrimFloat.infinity
  | "nan" => Some PrimFloat.nan
  | _ => None
  end.

Fixpoint lstrip_spaces (cs : list ascii) : list ascii :=
  match cs with
  | c :: cs' => if is_py_space c then lstrip_spaces cs' else cs
  | [] => []
  end.

(** [s.strip()] on the characters of [s]. *)
Definition strip_spaces (cs : list ascii) : list ascii :=
  reverse (lstrip_spaces (reverse (lstrip_spaces cs))).

(** [float(s)] for a [str] [s]; [None] where Python raises [ValueError]. *)
Definition parse_float (s : string) : option float :=
  let cs := strip_spaces (String.list_ascii_of_string s) in
  let '(neg, body) := match cs with
                      | "-"%char :: r => (true, r)
                      | "+"%char :: r => (false, r)
                      | _ => (false, cs)
                      end in
  match parse_special body with
  | Some f => Some (if neg then PrimFloat.opp f else f)
  | None =>
      match parse_decimal body with
      | Some (m, e, []) => Some (round_decimal neg m e)
      | _ => None
      end
  end.

(** ** [sum] *)

Inductive py_version := Py311 | Py312.

(** CPython 3.12's float loop of [sum]: Neumaier's compensated sum. *)
Fixpoint neumaier (f c : float) (xs : list float) : float * float :=
  match xs with
  | [] => (f, c)
  | x :: xs' =>
      let t := PrimFloat.add f x in
      let c' := if PrimFloat.leb (PrimFloat.abs x) (PrimFloat.abs f)
                then PrimFloat.add c (PrimFloat.add (PrimFloat.sub f t) x)
                else PrimFloat.add c (PrimFloat.add (PrimFloat.sub x t) f) in
      neumaier t c' xs'
  end.

(** [sum(xs)] of a list of floats, start [0]: the [int] 0 meets the first
    float through [int + float], then the float loop runs. *)
Definition py_sum (v : py_version) (xs : list float) : pynum :=
  match xs with
  | [] => PInt 0
  | x :: xs' =>
      let f0 := PrimFloat.add PrimFloat.zero x in
      match v with
      | Py311 => PFloat (fold_left PrimFloat.add xs' f0)
      | Py312 =>
          let '(f, c) := neumaier f0 PrimFloat.zero xs' in
          PFloat (if negb (PrimFloat.eqb c PrimFloat.zero) && PrimFloat.is_finite c
                  then PrimFloat.add f c else f)
      end
  end.
