(* ===== verification/Json.v ===== *)
(** * Python values decoded from JSON, and the operations the scripts apply

    [client.execute] (gql) returns the response's [data] object decoded by
    [json.loads]: [None], [bool], [int], [float], [str], [list] and
    [dict] values.  src/get_ai_fees.py applies to them [v["key"]],
    [len(v)], [for x in v] and [float(v)].  Each operation is modelled
    with the exception Python raises on the other types; a [dict] is a
    [pydict] (json.loads keeps one entry per key). *)

From Stdlib Require Import ZArith Floats.
From stdpp Require Import base list strings.
From S2P Require Import Prelude PyDict PyFloat.

Inductive json :=
| JNull
| JBool (b : bool)
| JInt (z : Z)
| JFloat (f : float)
| JStr (s : string)
| JList (l : list json)
| JDict (d : pydict string json).

(** [type(v).__name__] *)
Definition type_name (v : json) : string :=
  match v with
  | JNull => "NoneType"
  | JBool _ => "bool"
  | JInt _ => "int"
  | JFloat _ => "float"
  | JStr _ => "str"
  | JList _ => "list"
  | JDict _ => "dict"
  end.

(** [v[k]] for a [str] key [k]. *)
Definition json_getitem (v : json) (k : string) : exn + json :=
  match v with
  | JDict d =>
      match getitem k d with
      | Some x => inr x
      | None => inl (KeyError k)
      end
  | JList _ => inl (TypeError "list indices must be integers or slices, not str")
  | JStr _ => inl (TypeError "string indices must be integers, not 'str'")
  | _ => inl (TypeError ("'" ^ type_name v ^ "' object is not subscriptable"))
  end.

(** [len(v)] *)
Definition json_len (v : json) : exn + Z :=
  match v with
  | JList l => inr (Z.of_nat (length l))
  | JDict d => inr (Z.of_nat (len d))
  | JStr s => inr (Z.of_nat (String.length s))
  | _ => inl (TypeError ("object of type '" ^ type_name v ^ "' has no len()"))
  end.

(** The items of [for x in v]: a list's elements, a dict's keys, a
    string's characters. *)
Definition json_iter (v : json) : exn + list json :=
  match v with
  | JList l => inr l
  | JDict d => inr (map JStr (keys d))
  | JStr s => inr (map (fun c => JStr (String c EmptyString)) (String.list_ascii_of_string s))
  | _ => inl (TypeError ("'" ^ type_name v ^ "' object is not iterable"))
  end.

(** [float(v)] *)
Definition json_float (v : json) : exn + float :=
  match v with
  | JStr s =>
      match parse_float s with
      | Some f => inr f
      | None => inl (ValueError ("could not convert string to float: '" ^ s ^ "'"))
      end
  | JInt z =>
      match int_to_float z with
      | Some f => inr f
      | None => inl (OverflowError "int too large to convert to float")
      end
  | JFloat f => inr f
  | JBool b => inr (if b then PrimFloat.one else PrimFloat.zero)
  | _ => inl (TypeError ("float() argument must be a string or a real number, not '"
                         ^ type_name v ^ "'"))
  end.

(** [[f(x) for x in xs]] for an [f] that may raise: the first exception
    ends the comprehension. *)
Fixpoint map_exn {A B} (f : A -> exn + B) (xs : list A) : exn + list B :=
  match xs with
  | [] => inr []
  | x :: xs' =>
      match f x with
      | inl e => inl e
      | inr y => match map_exn f xs' with
                 | inl e => inl e
                 | inr ys => inr (y :: ys)
                 end
      end
  end.

Lemma map_exn_inr {A B} (f : A -> exn + B) xs ys :
  Forall2 (fun x y => f x = inr y) xs ys -> map_exn f xs = inr ys.
Proof. induction 1 as [|x y xs ys Hxy _ IH]; simpl; [done|]. by rewrite Hxy, IH. Qed.

Lemma map_exn_inl {A B} (f : A -> exn + B) pre x post e :
  Forall (fun x => exists y, f x = inr y) pre -> f x = inl e ->
  map_exn f (pre ++ x :: post) = inl e.
Proof.
  intros Hpre Hx. induction Hpre as [|p pre [y Hy] _ IH]; simpl.
  - by rewrite Hx.
  - by rewrite Hy, IH.
Qed.

Lemma json_len_nonneg v n : json_len v = inr n -> (0 <= n)%Z.
Proof. destruct v; simpl; intros [= <-]; lia. Qed.
