(* ===== verification/OrchsInit.v ===== *)
(** * The module body of src/get_ai_orchs.py (lines 9-25) and the whole run

    Importing the module reads [INFURA_API_KEY] from the environment and
    raises [ValueError] when it is unset or empty (lines 9-11), builds the
    RPC URI (line 12), reads the two ABI files (lines 14-20: the
    BondingManager's ABI is the [result] field of its file, the
    AIServiceRegistry's the JSON text held in the [result] field of its
    file, decoded again), computes [NULL_ADDRESS] (line 22) and creates the
    [output] directory (lines 24-25).  The main block first builds the
    [Web3] client and the two contract objects (lines 79-87,
    [main_setup]); running the script ([program]) is the module body, the
    set-up and [main] of [OrchsMain], whose calls go through the object
    they are made on to the node behind the endpoint ([contract_network]).
    A node [serves] a chain when it answers as the chain for the contract
    each call is meant for; since the checksum keeps the addresses up to
    case, [main] then runs against the chain itself ([run_program], by
    [main_proper]).

    The environment is a read-only map ([environ]); the JSON decoder of
    Python's [json] module and the Keccak hash are parameters of the
    sections ([json_decode], [keccak_hex]); the theorems only constrain
    the decoder on the two files' texts, and hold for every hash.

    The theorems: the globals and the one effect of the module body
    (C10), that it has no partial effect (C18), the missing key (C14),
    and the whole script on a healthy chain (C8) and on
    a failing pool walk (C9). *)

From stdpp Require Import base list strings gmap pretty.
From S2P Require Import Prelude PyDict Contracts PoolContract TranscoderPool ServiceUris Json OrchsMain.

(** ** Constants and globals *)

(** Line 14. *)
Definition BONDING_MANAGER_ADDRESS : string := "0x35Bcf3c30594191d53231E4FF333E8A770453e40".

(** Line 18. *)
Definition AI_SERVICE_REGISTRY_ADDRESS : string := "0x04C0b249740175999E5BF5c9ac1dA92431EF34C5".

Definition BONDING_MANAGER_ABI_PATH : string := "abis/BondingManager.json".
Definition AI_SERVICE_REGISTRY_ABI_PATH : string := "abis/AIServiceRegistry.json".

Definition INFURA_PREFIX : string := "https://arbitrum-mainnet.infura.io/v3/".

Definition MISSING_KEY : exn :=
  ValueError "Please set the INFURA_API_KEY environment variable".

(** The process environment, as [os.environ]. *)
Definition environ := gmap string string.

(** The module's globals after line 25. *)
Record module_globals := mk_globals {
  RCP_URI : string;
  BONDING_MANAGER_ABI : json;
  AI_SERVICE_REGISTRY_ABI : json;
  null_address : address
}.

(** ** File and directory operations *)

(** [open(p)] then reading the whole file, as [json.load(f)] does. *)
Definition read_file (p : string) : M world string := fun w =>
  match files w !! p with
  | Some c => (w, Ret c)
  | None => (w, Exc (FileNotFoundError p))
  end.

(** [os.makedirs(p, exist_ok=True)] for a path [p] without a slash: nothing
    to do if the directory exists, [FileExistsError] if a file has the
    name. *)
Definition makedirs_exist_ok (p : string) : M world unit := fun w =>
  if bool_decide (p ∈ dirs w) then (w, Ret tt)
  else match files w !! p with
       | Some _ => (w, Exc (FileExistsError p))
       | None => (mk_world (calls w) (stdout w) (files w) ({[p]} ∪ dirs w), Ret tt)
       end.

(** [Web3.to_checksum_address] as a statement. *)
Definition checksum_or_raise (r : option address) (value : string) : exn + address :=
  match r with
  | Some a => inr a
  | None => inl (ValueError ("Unknown format " ^ value))
  end.

(** ** The client and the contract objects *)

(** [Web3(Web3.HTTPProvider(uri))]: a client of the node at [uri]. *)
Record web3 := mk_web3 { provider_uri : string }.

(** [w3.eth.contract(address=a, abi=abi)]: the address its calls go to
    and the ABI that encodes them (carried, not checked: see
    [main_setup]). *)
Record contract := mk_contract { contract_address : address; contract_abi : json }.

(** The nodes behind every endpoint: the reply, at the [n]-th call of the
    run, of the contract at address [a] reached through the endpoint
    [uri]. *)
Definition rpc_node := string -> address -> network.

(** Where each call of the main block goes: [getServiceURI] through the
    registry object, the pool walk through the BondingManager object
    (lines 38, 41, 66), all through the client [w3]. *)
Definition contract_network (node : rpc_node) (w3 : web3)
    (bonding_manager service_registry : contract) : network :=
  fun n c =>
    let target := match c with
                  | getServiceURI _ => service_registry
                  | _ => bonding_manager
                  end in
    node (provider_uri w3) (contract_address target) n c.

(** The contract each call is meant for (lines 14 and 18). *)
Definition deployed (c : call) : address :=
  match c with
  | getServiceURI _ => AI_SERVICE_REGISTRY_ADDRESS
  | _ => BONDING_MANAGER_ADDRESS
  end.

(** [node] at [uri] answers as [net] for the contract each call is meant
    for, whatever the case of the address's hex digits. *)
Definition serves (node : rpc_node) (uri : string) (net : network) : Prop :=
  forall a n c, str_lower a = str_lower (deployed c) -> node uri a n c = net n c.

Section Init.
Context (env : environ) (json_decode : string -> exn + json) (keccak_hex : string -> string).

(** [json.loads(v)] of an already decoded value [v]. *)
Definition json_loads (v : json) : exn + json :=
  match v with
  | JStr s => json_decode s
  | _ => inl (TypeError ("the JSON object must be str, bytes or bytearray, not " ^ type_name v))
  end.

(** [os.getenv(k)] and its truth value. *)
Definition os_getenv (k : string) : option string := env !! k.

Definition truthy_opt (v : option string) : bool :=
  match v with
  | Some s => truthy s
  | None => false
  end.

(** Lines 9-25. *)
Definition module_init : M world module_globals :=
  let INFURA_API_KEY := os_getenv "INFURA_API_KEY" in
  if negb (truthy_opt INFURA_API_KEY) then raise MISSING_KEY else
  let RCP_URI := INFURA_PREFIX ^ default "" INFURA_API_KEY in
  bm ← read_file BONDING_MANAGER_ABI_PATH;
  bm_doc ← lift (json_decode bm);
  BONDING_MANAGER_ABI ← lift (json_getitem bm_doc "result");
  sr ← read_file AI_SERVICE_REGISTRY_ABI_PATH;
  sr_doc ← lift (json_decode sr);
  sr_result ← lift (json_getitem sr_doc "result");
  AI_SERVICE_REGISTRY_ABI ← lift (json_loads sr_result);
  let zero := "0x" ^ zeros40 in
  NULL_ADDRESS ← lift (checksum_or_raise (to_checksum_address keccak_hex zero) zero);
  makedirs_exist_ok OUTPUT_DIR;;
  mret (mk_globals RCP_URI BONDING_MANAGER_ABI AI_SERVICE_REGISTRY_ABI NULL_ADDRESS).

(** [Web3.to_checksum_address(value)] as a statement. *)
Definition checksummed (value : string) : exn + address :=
  checksum_or_raise (to_checksum_address keccak_hex value) value.

(** Lines 79-87: the client and the two contract objects.  Creating them
    sends no request.  Not modelled: web3 validates the ABI here
    ([ValueError] on a malformed one) and looks each function up in it
    when a call is made ([ABIFunctionNotFound]); the model carries the
    ABI without using it, so its only statements that can raise are the
    checksums. *)
Definition main_setup (g : module_globals) : M world (web3 * contract * contract) :=
  let w3 := mk_web3 (RCP_URI g) in
  bm_address ← lift (checksummed BONDING_MANAGER_ADDRESS);
  let bonding_manager := mk_contract bm_address (BONDING_MANAGER_ABI g) in
  sr_address ← lift (checksummed AI_SERVICE_REGISTRY_ADDRESS);
  let service_registry := mk_contract sr_address (AI_SERVICE_REGISTRY_ABI g) in
  mret (w3, bonding_manager, service_registry).

(** [python get_ai_orchs.py]: the module body, then the main block, whose
    calls go through the contract objects to [node]. *)
Definition program (node : rpc_node) (fuel : nat) : M world unit :=
  g ← module_init;
  '(w3, bonding_manager, service_registry) ← main_setup g;
  main (contract_network node w3 bonding_manager service_registry) fuel.

(** What the module body needs: a non-empty API key, and two ABI files
    whose texts decode to [abi1] and [abi2] as lines 16 and 20 read them;
    and no file named [output]. *)
Definition init_inputs (w : world) (key : string) (abi1 abi2 : json) : Prop :=
  env !! "INFURA_API_KEY" = Some key /\ key <> "" /\
  (exists bm bm_doc, files w !! BONDING_MANAGER_ABI_PATH = Some bm /\
     json_decode bm = inr bm_doc /\ json_getitem bm_doc "result" = inr abi1) /\
  (exists sr sr_doc s, files w !! AI_SERVICE_REGISTRY_ABI_PATH = Some sr /\
     json_decode sr = inr sr_doc /\ json_getitem sr_doc "result" = inr (JStr s) /\
     json_decode s = inr abi2) /\
  files w !! OUTPUT_DIR = None.

End Init.

(** The world with the directory [p] created. *)
Definition with_dir (p : string) (w : world) : world :=
  mk_world (calls w) (stdout w) (files w) ({[p]} ∪ dirs w).

(** ** Run lemmas *)

Lemma run_read_file p w c : files w !! p = Some c -> read_file p w = (w, Ret c).
Proof. intros Hc. unfold read_file. by rewrite Hc. Qed.

Lemma run_makedirs p w :
  files w !! p = None -> makedirs_exist_ok p w = (with_dir p w, Ret tt).
Proof.
  intros Hf. unfold makedirs_exist_ok, with_dir. case_bool_decide as Hp.
  - destruct w as [cs out fs ds]. simpl in *. by rewrite subseteq_union_1_L by set_solver.
  - by rewrite Hf.
Qed.

Lemma with_dir_in p w : p ∈ dirs (with_dir p w).
Proof. unfold with_dir. simpl. set_solver. Qed.

Lemma checksum_zero keccak_hex :
  checksum_or_raise (to_checksum_address keccak_hex ("0x" ^ zeros40)) ("0x" ^ zeros40) =
  inr NULL_ADDRESS.
Proof. by rewrite to_checksum_address_zero. Qed.

Section InitRuns.
Context (env : environ) (json_decode : string -> exn + json) (keccak_hex : string -> string).

Lemma module_init_no_key w :
  truthy_opt (os_getenv env "INFURA_API_KEY") = false ->
  module_init env json_decode keccak_hex w = (w, Exc MISSING_KEY).
Proof. intros Hk. unfold module_init. by rewrite Hk. Qed.

(** The module body, followed by the rest [k] of the script. *)
Lemma run_bind_module_init {B} w key abi1 abi2 (k : module_globals -> M world B) :
  init_inputs env json_decode w key abi1 abi2 ->
  (module_init env json_decode keccak_hex ≫= k) w =
  k (mk_globals (INFURA_PREFIX ^ key) abi1 abi2 NULL_ADDRESS) (with_dir OUTPUT_DIR w).
Proof.
  intros Hin. apply run_bind_ret. revert Hin.
  intros (Hkey & Hne & (bm & bm_doc & Hbm & Hd1 & Hr1) & (sr & sr_doc & s & Hsr & Hd2 & Hr2 & Hd3)
          & Hout).
  unfold module_init, os_getenv. rewrite Hkey. cbn [truthy_opt default].
  rewrite (proj2 (truthy_iff key) Hne). cbn [negb].
  py_step (run_read_file _ _ _ Hbm). rewrite Hd1, run_bind_lift_inr, Hr1, run_bind_lift_inr.
  py_step (run_read_file _ _ _ Hsr). rewrite Hd2, run_bind_lift_inr, Hr2, run_bind_lift_inr.
  cbn [json_loads]. rewrite Hd3, run_bind_lift_inr, checksum_zero, run_bind_lift_inr.
  py_step (run_makedirs _ _ Hout). reflexivity.
Qed.

(** C10: with a non-empty [INFURA_API_KEY] and readable ABI files, the
    module body ends normally; its only effect is to create [output] (if
    it was missing); the RPC URI is the Infura URL ending in the key, the
    ABIs are the ones the files hold (the registry's decoded a second
    time), and [NULL_ADDRESS] is the all-zero address [0x000...0] in text
    form, whatever the Keccak hash: the checksum leaves an address
    without letters unchanged, so line 44 compares against that exact
    text. *)
Theorem module_init_globals w key abi1 abi2 :
  init_inputs env json_decode w key abi1 abi2 ->
  module_init env json_decode keccak_hex w =
  (with_dir OUTPUT_DIR w, Ret (mk_globals (INFURA_PREFIX ^ key) abi1 abi2 ("0x" ^ zeros40))).
Proof.
  intros Hin. rewrite <- (bind_ret_r (module_init env json_decode keccak_hex)).
  exact (run_bind_module_init w key abi1 abi2 mret Hin).
Qed.

(** The two constants of lines 14 and 18 pass the checksum, whatever the
    hash, which only changes the case of their letters. *)
Lemma checksummed_ok v :
  all_hex (str_lower (strip_0x v)) = true -> String.length (str_lower (strip_0x v)) = 40 ->
  str_lower v = "0x" ^ str_lower (strip_0x v) ->
  exists a, checksummed keccak_hex v = inr a /\ str_lower a = str_lower v.
Proof.
  intros Hh Hl Hv. destruct (to_checksum_address_case keccak_hex v Hh Hl) as (a & Ha & Hla).
  exists a. unfold checksummed. rewrite Ha, Hv. by split.
Qed.

(** The set-up, followed by the rest [k] of the main block. *)
Lemma run_bind_main_setup {B} g (k : web3 * contract * contract -> M world B) w :
  exists bm_address sr_address,
    (main_setup keccak_hex g ≫= k) w =
    k (mk_web3 (RCP_URI g), mk_contract bm_address (BONDING_MANAGER_ABI g),
       mk_contract sr_address (AI_SERVICE_REGISTRY_ABI g)) w /\
    str_lower bm_address = str_lower BONDING_MANAGER_ADDRESS /\
    str_lower sr_address = str_lower AI_SERVICE_REGISTRY_ADDRESS.
Proof.
  destruct (checksummed_ok BONDING_MANAGER_ADDRESS) as (a & Ha & Hla); [done..|].
  destruct (checksummed_ok AI_SERVICE_REGISTRY_ADDRESS) as (b & Hb & Hlb); [done..|].
  exists a, b. split_and!; [|done..].
  unfold main_setup. by rewrite Ha, Hb.
Qed.

(** Contract objects at the deployed addresses reach what [node] serves
    there. *)
Lemma contract_network_serves node uri net bm sr :
  serves node uri net ->
  str_lower (contract_address bm) = str_lower BONDING_MANAGER_ADDRESS ->
  str_lower (contract_address sr) = str_lower AI_SERVICE_REGISTRY_ADDRESS ->
  contract_network node (mk_web3 uri) bm sr ≡ net.
Proof. intros Hs Hb Hr n c. apply Hs. by destruct c. Qed.

(** The script with its inputs in place runs the main block against the
    node that serves the two contracts at the Infura endpoint. *)
Lemma run_program node net fuel w key abi1 abi2 :
  init_inputs env json_decode w key abi1 abi2 -> serves node (INFURA_PREFIX ^ key) net ->
  program env json_decode keccak_hex node fuel w = main net fuel (with_dir OUTPUT_DIR w).
Proof.
  intros Hin Hs. unfold program. rewrite (run_bind_module_init w key abi1 abi2 _ Hin).
  destruct (run_bind_main_setup (mk_globals (INFURA_PREFIX ^ key) abi1 abi2 NULL_ADDRESS)
              (fun '(w3, bm, sr) => main (contract_network node w3 bm sr) fuel)
              (with_dir OUTPUT_DIR w)) as (a & b & -> & Ha & Hb).
  apply M_equiv_run, main_proper; [|done]. by apply contract_network_serves.
Qed.

(** C14: the script fails fast without an API key: when [INFURA_API_KEY]
    is unset or empty, running the script raises [ValueError("Please set
    the INFURA_API_KEY environment variable")] before anything else: no
    file is read or written, no directory created, no RPC call made and
    nothing printed. *)
Theorem program_missing_key node fuel w :
  env !! "INFURA_API_KEY" = None \/ env !! "INFURA_API_KEY" = Some "" ->
  program env json_decode keccak_hex node fuel w = (w, Exc MISSING_KEY).
Proof.
  intros Hk. unfold program. apply run_bind_exc, module_init_no_key.
  unfold os_getenv. by destruct Hk as [-> | ->].
Qed.

End InitRuns.

(** ** The module body has no partial effect *)

Lemma with_dir_mem p w : p ∈ dirs w -> with_dir p w = w.
Proof.
  intros Hp. destruct w as [cs out fs ds]. unfold with_dir. simpl in *.
  by rewrite subseteq_union_1_L by set_solver.
Qed.

(** C18: whatever the environment, the files and the decoder, importing
    the module either raises with the process state untouched (no
    directory created, nothing printed, no call) or ends normally having
    only created [output]: its one effect, [os.makedirs], comes after
    every statement that can fail but itself. *)
Lemma run_bind_read_file {B} p (f : string -> M world B) w :
  (read_file p ≫= f) w =
  (lift (match files w !! p with
         | Some c => inr c
         | None => inl (FileNotFoundError p)
         end) ≫= f) w.
Proof. rewrite !run_bind. unfold read_file, lift. by destruct (files w !! p). Qed.

(** One statement of the module body that either raises, leaving the
    state as it is, or goes on. *)
Ltac init_step :=
  first
  [ rewrite run_bind_read_file
  | match goal with
    | |- context [(lift ?r ≫= _) _] =>
        destruct r; [left; eexists; apply run_bind_lift_inl | rewrite run_bind_lift_inr]
    end ].

Theorem module_init_atomic env json_decode keccak_hex w :
  (exists e, module_init env json_decode keccak_hex w = (w, Exc e)) \/
  (exists g, module_init env json_decode keccak_hex w = (with_dir OUTPUT_DIR w, Ret g)).
Proof.
  unfold module_init.
  destruct (negb (truthy_opt (os_getenv env "INFURA_API_KEY"))); [left; by eexists|].
  repeat init_step.
  rewrite run_bind. unfold makedirs_exist_ok. case_bool_decide.
  - right. eexists. by rewrite with_dir_mem.
  - destruct (files w !! OUTPUT_DIR); [left | right]; by eexists.
Qed.

(** ** The whole script *)

Section Script.
Context (env : environ) (json_decode : string -> exn + json) (keccak_hex : string -> string).
Context {P : Type} `{TranscoderPoolLaws P} (st : chain_state P).
Hypothesis Hinv : pool_inv (bonding_manager st).

(** C8: running the script against a healthy chain with a non-empty pool
    [l] and enough fuel, with the key and ABI files in place, ends
    normally: the module body creates [output], the main block makes the
    calls of the pool walk and then one [getServiceURI] per member;
    [output/main_orchestrators.txt] holds one line per member, in pool
    order; [output/ai_orchestrators.txt] holds one [address URI] line per
    member with a non-empty URI, in pool order; and the last line printed
    is the number of those members. *)
Theorem program_healthy node l fuel w key abi1 abi2 :
  init_inputs env json_decode w key abi1 abi2 ->
  serves node (INFURA_PREFIX ^ key) (chain_network st) ->
  pool_members (bonding_manager st) = l -> l <> [] -> length l <= fuel ->
  exists w', program env json_decode keccak_hex node fuel w = (w', Ret tt) /\
    calls w' = calls w ++ getFirstTranscoderInPool :: next_calls l ++ map getServiceURI l /\
    files w' !! main_orchestrators_path = Some (str_join (map orchestrator_line l)) /\
    files w' !! ai_orchestrators_path =
      Some (str_join (map ai_orchestrator_line (uri_entries (registry_resolve st) l))) /\
    last (stdout w') = Some ("Total number of AI Orchestrators: "
                             ^ pretty (N.of_nat (length (uri_entries (registry_resolve st) l)))).
Proof.
  intros Hin Hs Hm Hne Hf.
  destruct (main_healthy st Hinv l fuel (with_dir OUTPUT_DIR w) Hm Hne Hf (with_dir_in _ _))
    as (w' & Hrun & Hc & Hmf & Hai & Hlast).
  exists w'. split_and!; [|exact Hc|exact Hmf|exact Hai|exact Hlast].
  by rewrite (run_program env json_decode keccak_hex node _ fuel w key abi1 abi2 Hin Hs).
Qed.

(** C9: [get_transcoder_pool] reports a failure by returning [None], and
    the main block does not check for it: when any call of the pool walk
    fails, the script prints the error, truncates
    [output/main_orchestrators.txt] (its previous content is lost), then
    raises [TypeError] at [for orchestrator in orchestrators]; no URI is
    looked up and [output/ai_orchestrators.txt] is left as it was. *)
Theorem program_pool_fault_crashes node l fuel w key abi1 abi2 j e :
  init_inputs env json_decode w key abi1 abi2 ->
  serves node (INFURA_PREFIX ^ key) (inject_fault (length (calls w) + j) e (chain_network st)) ->
  pool_members (bonding_manager st) = l -> l <> [] -> length l <= fuel -> j <= length l ->
  exists w',
    program env json_decode keccak_hex node fuel w =
    (w', Exc (TypeError "'NoneType' object is not iterable")) /\
    files w' = <[main_orchestrators_path := ""]> (files w) /\
    calls w' = calls w ++ take (S j) (getFirstTranscoderInPool :: next_calls l) /\
    stdout w' = stdout w ++ ["Fetching mainnet Orchestrators...";
                             "An error occurred: " ^ str_exn e;
                             "Store the mainnet Orchestrators in output/main_orchestrators.txt"].
Proof.
  intros Hin Hs Hm Hne Hf Hj.
  destruct (main_pool_fault_crashes st Hinv l fuel (with_dir OUTPUT_DIR w) j e Hm Hne Hf Hj
              (with_dir_in _ _)) as (w' & Hrun & Hfiles & Hc & Hout).
  exists w'. split_and!; [|exact Hfiles|exact Hc|exact Hout].
  by rewrite (run_program env json_decode keccak_hex node _ fuel w key abi1 abi2 Hin Hs).
Qed.

End Script.

(** ** Witnesses *)

Definition example_env : gmap string string := {[ "INFURA_API_KEY" := "k3y" ]}.

(** A decoder that knows the texts of the example ABI files: the
    BondingManager file holds its ABI as a list, the registry file holds it
    as JSON text. *)
Definition example_decode (s : string) : exn + json :=
  if String.eqb s "bm" then inr (JDict [("result", JList [])])
  else if String.eqb s "sr" then inr (JDict [("result", JStr "[]")])
  else if String.eqb s "[]" then inr (JList [])
  else inl (ValueError "Expecting value").

(** A checkout with the two ABI files and no [output] yet. *)
Definition example_world : world :=
  mk_world [] [] {[ BONDING_MANAGER_ABI_PATH := "bm"; AI_SERVICE_REGISTRY_ABI_PATH := "sr" ]} ∅.

(** A node that answers as [net] at the example endpoint for the two
    deployed contracts, and reverts any other call. *)
Definition example_node (net : network) : rpc_node := fun uri a n c =>
  if bool_decide (uri = INFURA_PREFIX ^ "k3y" /\ str_lower a = str_lower (deployed c))
  then net n c else Raised (RemoteError "execution reverted").

Lemma example_node_serves net : serves (example_node net) (INFURA_PREFIX ^ "k3y") net.
Proof. intros a n c Ha. unfold example_node. by rewrite bool_decide_true. Qed.

Lemma example_init_inputs :
  init_inputs example_env example_decode example_world "k3y" (JList []) (JList []).
Proof.
  split_and!; [reflexivity|discriminate|do 2 eexists; split_and!; reflexivity
              |do 3 eexists; split_and!; reflexivity|reflexivity].
Qed.

Lemma module_init_globals_witness :
  init_inputs example_env example_decode example_world "k3y" (JList []) (JList []) /\
  module_init example_env example_decode (fun h => h) example_world =
  (with_dir OUTPUT_DIR example_world,
   Ret (mk_globals "https://arbitrum-mainnet.infura.io/v3/k3y" (JList []) (JList [])
          ("0x" ^ zeros40))).
Proof.
  split; [exact example_init_inputs|].
  exact (module_init_globals example_env example_decode (fun h => h) example_world
           "k3y" (JList []) (JList []) example_init_inputs).
Defined.

Lemma program_missing_key_witness :
  (∅ : gmap string string) !! "INFURA_API_KEY" = None /\
  program ∅ example_decode (fun h => h) (example_node (chain_network example_chain)) 3
    example_world =
  (example_world, Exc MISSING_KEY).
Proof.
  split; [reflexivity|].
  apply (program_missing_key ∅ example_decode (fun h => h)). by left.
Defined.

Lemma program_healthy_witness :
  exists w', program example_env example_decode (fun h => h)
               (example_node (chain_network example_chain)) 3 example_world = (w', Ret tt) /\
    files w' !! main_orchestrators_path =
      Some ("0xA1" ^ newline ^ "0xB2" ^ newline ^ "0xC3" ^ newline) /\
    files w' !! ai_orchestrators_path =
      Some ("0xB2 https://b2.example:8935" ^ newline) /\
    last (stdout w') = Some "Total number of AI Orchestrators: 1".
Proof.
  destruct (program_healthy example_env example_decode (fun h => h) example_chain
              example_chain_inv (example_node (chain_network example_chain)) example_pool 3
              example_world "k3y" (JList []) (JList []) example_init_inputs
              (example_node_serves _) eq_refl ltac:(discriminate) ltac:(simpl; lia))
    as (w' & Hrun & _ & Hmain & Hai & Hlast).
  exists w'. split_and!; [exact Hrun|rewrite Hmain; reflexivity
                         |rewrite Hai; reflexivity|rewrite Hlast; reflexivity].
Defined.

Lemma program_pool_fault_crashes_witness :
  exists w',
    program example_env example_decode (fun h => h)
      (example_node (inject_fault 2 (RemoteError "429 Too Many Requests")
                       (chain_network example_chain)))
      3 example_world =
    (w', Exc (TypeError "'NoneType' object is not iterable")) /\
    files w' !! main_orchestrators_path = Some "" /\
    calls w' = [getFirstTranscoderInPool; getNextTranscoderInPool "0xA1";
                getNextTranscoderInPool "0xB2"].
Proof.
  destruct (program_pool_fault_crashes example_env example_decode (fun h => h) example_chain
              example_chain_inv
              (example_node (inject_fault 2 (RemoteError "429 Too Many Requests")
                               (chain_network example_chain)))
              example_pool 3 example_world "k3y" (JList []) (JList []) 2
              (RemoteError "429 Too Many Requests") example_init_inputs
              (example_node_serves _) eq_refl
              ltac:(discriminate) ltac:(simpl; lia) ltac:(simpl; lia))
    as (w' & Hrun & Hfiles & Hcalls & _).
  exists w'. split_and!; [exact Hrun|rewrite Hfiles; reflexivity|rewrite Hcalls; reflexivity].
Defined.
