(* ===== verification/StrFormat.v ===== *)
(** * [str.format] with keyword arguments

    src/get_ai_fees.py builds each query with
    [query.format(broadcaster=broadcaster)] (line 21).  The model follows
    CPython's [MarkupIterator] (Objects/stringlib/unicode_format.h),
    reading the template one character at a time:
    - [{{] and [}}] stand for [{] and [}];
    - a single [}] raises [ValueError("Single '}' encountered in format
      string")], a [{] at the very end [ValueError("Single '{' encountered
      in format string")], an unclosed field [ValueError("expected '}'
      before end of string")];
    - a field [{name}] is replaced by the keyword argument [name]
      ([KeyError] if there is none); an empty or numeric name asks for a
      positional argument, of which there are none ([IndexError]).
    Fields with a conversion, a format spec, an attribute or an index
    ([!], [:], [.], [[]], nested braces) are outside the model: the
    result is then [FUnsupported] rather than a guess.

    The lemma on templates: a template made of two literal texts written
    with doubled braces ([escape_braces]) around one named field formats
    to the field's value between the two texts ([format_go_one_field]). *)

From Stdlib Require Import Ascii.
From stdpp Require Import base list strings.
From S2P Require Import Prelude PyDict.

Inductive fresult :=
| FOk (out : list ascii)
| FErr (e : exn)
| FUnsupported.

Inductive fstate :=
| Literal
| InField (depth : nat) (field : list ascii).

Definition is_special_field_char (c : ascii) : bool :=
  bool_decide (c ∈ ["!"; ":"; "."; "["; "]"; "{"; "}"]%char).

Fixpoint all_digits (cs : list ascii) : bool :=
  match cs with
  | [] => true
  | c :: cs' => bool_decide (48 <= Ascii.nat_of_ascii c <= 57)%nat && all_digits cs'
  end.

(** The replacement text of the field [name]. *)
Definition field_value (kwargs : string -> option string) (name : list ascii) : fresult :=
  if existsb is_special_field_char name then FUnsupported
  else if all_digits name then
    FErr (IndexError ("Replacement index " ^ (if bool_decide (name = []) then "0"
                                              else String.string_of_list_ascii name)
                      ^ " out of range for positional args tuple"))
  else match kwargs (String.string_of_list_ascii name) with
       | Some v => FOk (String.list_ascii_of_string v)
       | None => FErr (KeyError (String.string_of_list_ascii name))
       end.

Definition fprepend (pre : list ascii) (r : fresult) : fresult :=
  match r with
  | FOk out => FOk (pre ++ out)
  | _ => r
  end.

(** The format loop over the template's characters. *)
Fixpoint format_go (kwargs : string -> option string) (cs : list ascii) (st : fstate)
    : fresult :=
  match st with
  | Literal =>
      match cs with
      | [] => FOk []
      | "{"%char :: cs' =>
          match cs' with
          | [] => FErr (ValueError "Single '{' encountered in format string")
          | "{"%char :: cs'' => fprepend ["{"%char] (format_go kwargs cs'' Literal)
          | _ => format_go kwargs cs' (InField 1 [])
          end
      | "}"%char :: cs' =>
          match cs' with
          | "}"%char :: cs'' => fprepend ["}"%char] (format_go kwargs cs'' Literal)
          | _ => FErr (ValueError "Single '}' encountered in format string")
          end
      | c :: cs' => fprepend [c] (format_go kwargs cs' Literal)
      end
  | InField depth field =>
      match cs with
      | [] => FErr (ValueError "expected '}' before end of string")
      | "{"%char :: cs' => format_go kwargs cs' (InField (S depth) (field ++ ["{"%char]))
      | "}"%char :: cs' =>
          match depth with
          | 0 | 1 =>
              match field_value kwargs field with
              | FOk v => fprepend v (format_go kwargs cs' Literal)
              | r => r
              end
          | S d => format_go kwargs cs' (InField d (field ++ ["}"%char]))
          end
      | c :: cs' => format_go kwargs cs' (InField depth (field ++ [c]))
      end
  end.

Inductive format_outcome :=
| Formatted (s : string)
| FormatRaised (e : exn)
| FormatUnsupported.

(** [template.format(name=value, ...)] *)
Definition str_format (template : string) (kwargs : pydict string string) : format_outcome :=
  match format_go (fun k => getitem k kwargs) (String.list_ascii_of_string template) Literal with
  | FOk out => Formatted (String.string_of_list_ascii out)
  | FErr e => FormatRaised e
  | FUnsupported => FormatUnsupported
  end.

Lemma string_of_list_ascii_app (l1 l2 : list ascii) :
  String.string_of_list_ascii (l1 ++ l2) =
  String.string_of_list_ascii l1 ^ String.string_of_list_ascii l2.
Proof.
  induction l1 as [|c l1 IH]; [reflexivity|].
  change (String c (String.string_of_list_ascii (l1 ++ l2)) =
          String c (String.string_of_list_ascii l1 ^ String.string_of_list_ascii l2)).
  by rewrite IH.
Qed.

(** ** Brace doubling

    In a template, [{{] and [}}] are how the source writes a literal
    brace (lines 37-57 of src/get_ai_fees.py write every GraphQL brace
    so).  [escape_braces] doubles every brace of a text. *)
Fixpoint escape_braces (cs : list ascii) : list ascii :=
  match cs with
  | [] => []
  | c :: cs' =>
      if bool_decide (c = "{"%char \/ c = "}"%char) then c :: c :: escape_braces cs'
      else c :: escape_braces cs'
  end.

Lemma format_go_other kwargs c cs :
  c <> "{"%char -> c <> "}"%char ->
  format_go kwargs (c :: cs) Literal = fprepend [c] (format_go kwargs cs Literal).
Proof.
  intros H1 H2.
  destruct c as [[] [] [] [] [] [] [] []]; solve [reflexivity | congruence].
Qed.

Lemma format_go_field_other kwargs depth field c cs :
  c <> "{"%char -> c <> "}"%char ->
  format_go kwargs (c :: cs) (InField depth field) =
  format_go kwargs cs (InField depth (field ++ [c])).
Proof.
  intros H1 H2.
  destruct c as [[] [] [] [] [] [] [] []]; solve [reflexivity | congruence].
Qed.

Definition no_brace (cs : list ascii) : Prop :=
  Forall (fun c => c <> "{"%char /\ c <> "}"%char) cs.

(** The literal text [escape_braces a] in front of the rest of a
    template. *)
Lemma format_go_escape_app kwargs a rest :
  format_go kwargs (escape_braces a ++ rest) Literal = fprepend a (format_go kwargs rest Literal).
Proof.
  induction a as [|c a IH].
  - cbn [escape_braces app]. by destruct (format_go kwargs rest Literal).
  - cbn [escape_braces]. case_bool_decide as Hc.
    + destruct Hc as [-> | ->]; cbn [format_go app]; rewrite IH;
        by destruct (format_go kwargs rest Literal).
    + rewrite <- app_comm_cons, format_go_other by tauto. rewrite IH.
      by destruct (format_go kwargs rest Literal).
Qed.

Lemma format_go_field_name kwargs name : forall acc rest,
  no_brace name ->
  format_go kwargs (name ++ "}"%char :: rest) (InField 1 acc) =
  match field_value kwargs (acc ++ name) with
  | FOk v => fprepend v (format_go kwargs rest Literal)
  | r => r
  end.
Proof.
  induction name as [|c name IH]; intros acc rest Hn.
  - by rewrite app_nil_r.
  - apply Forall_cons in Hn as [[H1 H2] Hn].
    rewrite <- app_comm_cons, format_go_field_other by done.
    rewrite IH by done. by rewrite <- app_assoc.
Qed.

(** A named field between two literal texts. *)
Lemma format_go_one_field kwargs a name c :
  no_brace name -> name <> [] ->
  format_go kwargs (escape_braces a ++ "{"%char :: name ++ "}"%char :: escape_braces c) Literal =
  match field_value kwargs name with
  | FOk v => FOk (a ++ v ++ c)
  | r => r
  end.
Proof.
  intros Hn Hne. rewrite format_go_escape_app.
  destruct name as [|x name']; [done|].
  pose proof Hn as Hx. apply Forall_cons in Hx as [[Hx1 Hx2] _].
  assert (Hstep : format_go kwargs ("{"%char :: (x :: name') ++ "}"%char :: escape_braces c) Literal =
                  format_go kwargs ((x :: name') ++ "}"%char :: escape_braces c) (InField 1 [])).
  { destruct x as [[] [] [] [] [] [] [] []]; solve [reflexivity | congruence]. }
  rewrite Hstep, (format_go_field_name kwargs (x :: name') [] _ Hn). simpl app.
  destruct (field_value _ _); [|done|done].
  rewrite <- (app_nil_r (escape_braces c)), format_go_escape_app. simpl.
  by rewrite app_nil_r.
Qed.

