(* ===== verification/FeesQuery.v ===== *)
(** * The query of src/get_ai_fees.py and its broadcasters

    [WINNING_TICKET_QUERY] (lines 36-58) is a [str.format] template whose
    only field is [{broadcaster}]; every other brace is doubled.
    [KNOWN_AI_BROADCASTERS] (lines 6-10) are lower-cased before use
    (line 64).  The lemmas: the template is [QUERY_HEAD] and [QUERY_TAIL]
    with their braces doubled around the field, so formatting it with any
    broadcaster [b] yields [QUERY_HEAD ^ b ^ QUERY_TAIL] (C11, in [GqlFetch]);
    and the lower-cased broadcasters. *)

From Stdlib Require Import Ascii.
From stdpp Require Import base list strings.
From S2P Require Import Prelude PyDict StrFormat Contracts.

(** The text of a triple-quoted literal: each line followed by ["\n"]. *)
Definition text_of_lines (ls : list string) : string :=
  str_join (map (fun l => l ^ newline) ls).

(** Lines 36-58. *)
Definition WINNING_TICKET_QUERY : string :=
  newline ^ text_of_lines [
  "  query {{";
  "    winningTicketRedeemedEvents(";
  "      orderBy: timestamp";
  "      orderDirection: desc";
  "      where: {{sender: " ^ dquote ^ "{broadcaster}" ^ dquote ^ "}}";
  "    ) {{";
  "      id";
  "      recipient {{";
  "        id";
  "        serviceURI";
  "      }}";
  "      winProb";
  "      faceValueUSD";
  "      faceValue";
  "      timestamp";
  "      sender {{";
  "        id";
  "        deposit";
  "      }}";
  "    }}";
  "  }}"].

(** The document sent for a broadcaster: the text before and after it. *)
Definition QUERY_HEAD : string :=
  newline ^ text_of_lines [
  "  query {";
  "    winningTicketRedeemedEvents(";
  "      orderBy: timestamp";
  "      orderDirection: desc"] ^ "      where: {sender: " ^ dquote.

Definition QUERY_TAIL : string :=
  dquote ^ "}" ^ newline ^ text_of_lines [
  "    ) {";
  "      id";
  "      recipient {";
  "        id";
  "        serviceURI";
  "      }";
  "      winProb";
  "      faceValueUSD";
  "      faceValue";
  "      timestamp";
  "      sender {";
  "        id";
  "        deposit";
  "      }";
  "    }";
  "  }"].

(** Line 21: [query.format(broadcaster=broadcaster)]. *)
Definition broadcaster_query (query broadcaster : string) : format_outcome :=
  str_format query [("broadcaster", broadcaster)].

(** Lines 6-10. *)
Definition KNOWN_AI_BROADCASTERS : list string := [
  "0x012345dE92B630C065dFc0caBE4eB34f74f7FC85";
  "0x87d4396204035736422c2c6dfce423bba6daa776";
  "0x491F5F5664f11a1e0Ba6902A8cA37C09150bE0DB"].

(** Line 64. *)
Definition broadcasters : list string := map str_lower KNOWN_AI_BROADCASTERS.

(** The template is [QUERY_HEAD] and [QUERY_TAIL] with their braces
    doubled, around the one field [{broadcaster}]. *)
Lemma query_shape :
  String.list_ascii_of_string WINNING_TICKET_QUERY =
  escape_braces (String.list_ascii_of_string QUERY_HEAD) ++
  "{"%char :: String.list_ascii_of_string "broadcaster" ++
  "}"%char :: escape_braces (String.list_ascii_of_string QUERY_TAIL).
Proof. vm_compute. reflexivity. Qed.

Lemma format_query_chars b :
  format_go (fun k => getitem k [("broadcaster", b)])
    (String.list_ascii_of_string WINNING_TICKET_QUERY) Literal =
  FOk (String.list_ascii_of_string QUERY_HEAD ++ String.list_ascii_of_string b
       ++ String.list_ascii_of_string QUERY_TAIL).
Proof.
  rewrite query_shape, format_go_one_field; [reflexivity| |discriminate].
  repeat (constructor || discriminate).
Qed.

(** The broadcasters the loop of line 65 queries are the known ones in
    lower case, as the subgraph stores addresses. *)
Theorem broadcasters_lowercase :
  broadcasters = [
    "0x012345de92b630c065dfc0cabe4eb34f74f7fc85";
    "0x87d4396204035736422c2c6dfce423bba6daa776";
    "0x491f5f5664f11a1e0ba6902a8ca37c09150be0db"].
Proof. reflexivity. Qed.
