(* ===== verification/GqlFetch.v ===== *)
(** * [fetch_data_for_broadcaster] (src/get_ai_fees.py, lines 13-29)

    Each call builds a fresh transport (line 15) and a fresh gql [Client]
    with [fetch_schema_from_transport=True] (line 18), formats the query
    template (line 21, [str.format]), parses it with [gql()] (line 21),
    and executes it (line 24): connecting the new client first fetches the
    subgraph's schema with an introspection request, the document is
    validated against that schema, and only then is the query sent.  The
    function returns [result["winningTicketRedeemedEvents"]] (line 27).

    The subgraph is a function of the request's position in the run, its
    endpoint and the request ([subgraph]); gql's parser and validator are
    the operations of the class [GraphQLLibrary], on which every theorem
    is stated.  The process state of the fee script ([fees_world]) holds
    the requests sent and the lines printed.

    The theorems: the query each broadcaster gets (C11), and the outcome
    of a fetch on any answers: the events with an introspection request
    then the query, or one of the five failures, with the requests sent
    until then (C20). *)

From Stdlib Require Import ZArith.
From stdpp Require Import base list strings.
From S2P Require Import Prelude PyFloat Json StrFormat FeesQuery.

(** ** The fee script's process state *)

(** What the fee script prints, as data. *)
Inductive fees_line :=
| DataLine (broadcaster : string) (data : json)   (** line 67 *)
| TotalTickets (n : Z)                            (** line 73 *)
| TotalFaceValue (v : pynum)                      (** line 74 *)
| TotalFaceValueUSD (v : pynum).                  (** line 75 *)

(** The two HTTP requests a gql client sends: the introspection query of
    [fetch_schema_from_transport] and a document. *)
Inductive gql_request :=
| Introspection
| Query (document : string).

Record fees_world := mk_fees_world {
  requests : list (string * gql_request);   (** (endpoint, request), in order *)
  lines : list fees_line
}.

Definition fees_world0 : fees_world := mk_fees_world [] [].

(** The world with the requests [rs] sent. *)
Definition with_requests (w : fees_world) (rs : list (string * gql_request)) : fees_world :=
  mk_fees_world (requests w ++ rs) (lines w).

(** The subgraph's answer to the [n]-th request of the run: the decoded
    [data] object, or the exception the transport raises (connection and
    HTTP errors, and [TransportQueryError] for an answer with errors). *)
Definition subgraph := nat -> string -> gql_request -> exn + json.

(** gql's parser and the validation of a document against the schema
    built from an introspection answer: [None], or the exception raised
    ([GraphQLSyntaxError], [GraphQLError]). *)
Class GraphQLLibrary := {
  gql_parse : string -> option exn;
  gql_validate : json -> string -> option exn
}.

(** ** Statements of the fee script shared with its loop *)

Definition emit (l : fees_line) : M fees_world unit :=
  modify (fun w => mk_fees_world (requests w) (lines w ++ [l])).

(** [str.format]'s outcome as a statement.  A template outside the modelled
    part of the format language is reported as [ValueError]; C11 shows the
    script's template is inside it. *)
Definition run_format (r : format_outcome) : M fees_world string :=
  match r with
  | Formatted s => mret s
  | FormatRaised e => raise e
  | FormatUnsupported => raise (ValueError "format field outside the model")
  end.

(** A check that raises the exception it reports. *)
Definition raise_opt (r : option exn) : M fees_world unit :=
  match r with
  | Some e => raise e
  | None => mret tt
  end.

(** ** The client *)

(** Line 15: [RequestsHTTPTransport(url=url)]; creating it sends nothing. *)
Record transport := mk_transport { transport_url : string }.

(** Line 18: [Client(transport=transport, fetch_schema_from_transport=...)],
    a client that has no schema yet. *)
Record client := mk_client {
  client_transport : transport;
  fetch_schema_from_transport : bool
}.

Section Fetch.
Context `{GL : GraphQLLibrary} (sg : subgraph).

(** One HTTP request through the transport [t]. *)
Definition transport_execute (t : transport) (r : gql_request) : M fees_world json := fun w =>
  let u := transport_url t in
  match sg (length (requests w)) u r with
  | inl e => (with_requests w [(u, r)], Exc e)
  | inr x => (with_requests w [(u, r)], Ret x)
  end.

(** [gql(s)]: the document, once parsed. *)
Definition gql (s : string) : M fees_world string :=
  raise_opt (gql_parse s);; mret s.

(** [client.execute(document)] on a client without a schema: connecting
    fetches the schema when [fetch_schema_from_transport] is set, and the
    document is validated against it before it is sent. *)
Definition client_execute (c : client) (document : string) : M fees_world json :=
  (if fetch_schema_from_transport c then
     schema ← transport_execute (client_transport c) Introspection;
     raise_opt (gql_validate schema document)
   else mret tt);;
  transport_execute (client_transport c) (Query document).

(** Lines 13-29. *)
Definition fetch_data_for_broadcaster (url query broadcaster : string) : M fees_world json :=
  let transport := mk_transport url in
  let client := mk_client transport true in
  formatted ← run_format (broadcaster_query query broadcaster);
  document ← gql formatted;
  result ← client_execute client document;
  lift (json_getitem result "winningTicketRedeemedEvents").

End Fetch.

(** ** The query of each broadcaster *)

(** The document line 21 builds for the broadcaster [b]. *)
Definition doc_of (b : string) : string := QUERY_HEAD ^ b ^ QUERY_TAIL.

(** The requests of one fetch for [b] at [u], in order. *)
Definition requests_of (u b : string) : list (string * gql_request) :=
  [(u, Introspection); (u, Query (doc_of b))].

(** C11: for every broadcaster [b], formatting the template of line 36 as
    line 21 does succeeds and yields [QUERY_HEAD ^ b ^ QUERY_TAIL]: the
    doubled braces become single ones and [b] is spliced in verbatim,
    without escaping, between the quotes of [sender: "..."]. *)
Theorem broadcaster_query_splices b :
  broadcaster_query WINNING_TICKET_QUERY b = Formatted (QUERY_HEAD ^ b ^ QUERY_TAIL).
Proof.
  unfold broadcaster_query, str_format. rewrite format_query_chars.
  by rewrite !string_of_list_ascii_app, !String.string_of_list_ascii_of_string.
Qed.

(** Line 21 as a statement: the template formats without error. *)
Lemma run_format_query b :
  run_format (broadcaster_query WINNING_TICKET_QUERY b) = mret (doc_of b).
Proof.
  unfold broadcaster_query, str_format. rewrite format_query_chars. cbv iota beta.
  by rewrite !string_of_list_ascii_app, !String.string_of_list_ascii_of_string.
Qed.

(** ** The outcomes of a fetch *)

Section Outcomes.
Context `{GL : GraphQLLibrary} (sg : subgraph) (n : nat) (u b : string).

(** The fetch for [b] whose introspection is the [n]-th request of the
    run gets through parsing, the schema and validation, and its query is
    answered with [r]. *)
Definition fetch_answers (r : json) : Prop :=
  exists schema, gql_parse (doc_of b) = None /\ sg n u Introspection = inr schema /\
    gql_validate schema (doc_of b) = None /\ sg (S n) u (Query (doc_of b)) = inr r.

(** The ways the fetch raises [e] after sending [k] requests. *)
Inductive fetch_fails : exn -> nat -> Prop :=
| parse_fails e :
    gql_parse (doc_of b) = Some e -> fetch_fails e 0
| schema_fails e :
    gql_parse (doc_of b) = None -> sg n u Introspection = inl e -> fetch_fails e 1
| validation_fails schema e :
    gql_parse (doc_of b) = None -> sg n u Introspection = inr schema ->
    gql_validate schema (doc_of b) = Some e -> fetch_fails e 1
| query_fails schema e :
    gql_parse (doc_of b) = None -> sg n u Introspection = inr schema ->
    gql_validate schema (doc_of b) = None -> sg (S n) u (Query (doc_of b)) = inl e ->
    fetch_fails e 2
| events_missing r e :
    fetch_answers r -> json_getitem r "winningTicketRedeemedEvents" = inl e ->
    fetch_fails e 2.

End Outcomes.

Lemma with_requests_app w r1 r2 :
  with_requests (with_requests w r1) r2 = with_requests w (r1 ++ r2).
Proof. unfold with_requests. simpl. by rewrite app_assoc. Qed.

Lemma with_requests_nil w : with_requests w [] = w.
Proof. destruct w. unfold with_requests. simpl. by rewrite app_nil_r. Qed.

Lemma length_with_request w r :
  length (requests (with_requests w [r])) = S (length (requests w)).
Proof. simpl. rewrite length_app. simpl. lia. Qed.

#[export] Hint Rewrite with_requests_app length_with_request : py_run.

Section Runs.
Context `{GL : GraphQLLibrary} (sg : subgraph).

(** The fetch for [b] at [u], statement by statement. *)
Lemma run_fetch u b w :
  fetch_data_for_broadcaster sg u WINNING_TICKET_QUERY b w =
  match gql_parse (doc_of b) with
  | Some e => (w, Exc e)
  | None =>
      match sg (length (requests w)) u Introspection with
      | inl e => (with_requests w [(u, Introspection)], Exc e)
      | inr schema =>
          match gql_validate schema (doc_of b) with
          | Some e => (with_requests w [(u, Introspection)], Exc e)
          | None =>
              match sg (S (length (requests w))) u (Query (doc_of b)) with
              | inl e => (with_requests w (requests_of u b), Exc e)
              | inr r => lift (json_getitem r "winningTicketRedeemedEvents")
                           (with_requests w (requests_of u b))
              end
          end
      end
  end.
Proof.
  unfold fetch_data_for_broadcaster. rewrite run_bind, run_format_query, run_ret.
  unfold gql, client_execute, raise_opt, transport_execute. cbn [client_transport transport_url
    fetch_schema_from_transport].
  cbv [mbind M_bind mret M_ret raise lift].
  destruct (gql_parse (doc_of b)); [done|].
  destruct (sg (length (requests w)) u Introspection) as [e|schema]; [done|].
  destruct (gql_validate schema (doc_of b)); [done|].
  rewrite length_with_request, with_requests_app.
  by destruct (sg (S (length (requests w))) u (Query (doc_of b))).
Qed.

(** A fetch that gets its events [d]: two requests, the introspection
    then the query. *)
Lemma run_fetch_ok u b w r d :
  fetch_answers sg (length (requests w)) u b r ->
  json_getitem r "winningTicketRedeemedEvents" = inr d ->
  fetch_data_for_broadcaster sg u WINNING_TICKET_QUERY b w =
  (with_requests w (requests_of u b), Ret d).
Proof.
  intros (schema & Hp & Hs & Hv & Hq) Hd. by rewrite run_fetch, Hp, Hs, Hv, Hq, Hd.
Qed.

(** A failed fetch: its exception, after the requests sent so far. *)
Lemma run_fetch_fails u b w e k :
  fetch_fails sg (length (requests w)) u b e k ->
  fetch_data_for_broadcaster sg u WINNING_TICKET_QUERY b w =
  (with_requests w (take k (requests_of u b)), Exc e).
Proof.
  rewrite run_fetch. destruct 1 as [e Hp|e Hp Hs|s e Hp Hs Hv|s e Hp Hs Hv Hq|r e Ha Hd].
  - by rewrite Hp, with_requests_nil.
  - by rewrite Hp, Hs.
  - by rewrite Hp, Hs, Hv.
  - by rewrite Hp, Hs, Hv, Hq.
  - destruct Ha as (s & Hp & Hs & Hv & Hq). by rewrite Hp, Hs, Hv, Hq, Hd.
Qed.

(** A successful fetch, followed by the rest [k] of its caller. *)
Lemma run_bind_fetch_ok {B} u b w r d (k : json -> M fees_world B) :
  fetch_answers sg (length (requests w)) u b r ->
  json_getitem r "winningTicketRedeemedEvents" = inr d ->
  (fetch_data_for_broadcaster sg u WINNING_TICKET_QUERY b ≫= k) w =
  k d (with_requests w (requests_of u b)).
Proof. intros Ha Hd. apply run_bind_ret, (run_fetch_ok u b w r d Ha Hd). Qed.

(** A failed fetch, followed by the rest of its caller. *)
Lemma run_bind_fetch_fails {B} u b w e k (c : json -> M fees_world B) :
  fetch_fails sg (length (requests w)) u b e k ->
  (fetch_data_for_broadcaster sg u WINNING_TICKET_QUERY b ≫= c) w =
  (with_requests w (take k (requests_of u b)), Exc e).
Proof. intros Hf. apply run_bind_exc, (run_fetch_fails u b w e k Hf). Qed.

(** C20: whatever the subgraph answers and whatever gql's parser and
    validator decide, a fetch for [b] either gets its events, having sent
    exactly the introspection request and then the query, or raises in
    one of the five ways of [fetch_fails] (parse, schema, validation,
    query, missing [winningTicketRedeemedEvents]) with the requests sent
    until then and no other effect: the schema is fetched again by every
    fetch, and no document is sent that failed to parse or validate. *)
Theorem fetch_data_for_broadcaster_outcomes u b w :
  (exists r d, fetch_answers sg (length (requests w)) u b r /\
     json_getitem r "winningTicketRedeemedEvents" = inr d /\
     fetch_data_for_broadcaster sg u WINNING_TICKET_QUERY b w =
       (with_requests w (requests_of u b), Ret d)) \/
  (exists e k, fetch_fails sg (length (requests w)) u b e k /\
     fetch_data_for_broadcaster sg u WINNING_TICKET_QUERY b w =
       (with_requests w (take k (requests_of u b)), Exc e)).
Proof.
  rewrite run_fetch. set (n := length (requests w)).
  destruct (gql_parse (doc_of b)) as [e|] eqn:Hp.
  { right. exists e, 0. split; [by apply parse_fails|by rewrite with_requests_nil]. }
  destruct (sg n u Introspection) as [e|s] eqn:Hs.
  { right. exists e, 1. split; [by apply schema_fails|done]. }
  destruct (gql_validate s (doc_of b)) as [e|] eqn:Hv.
  { right. exists e, 1. split; [by eapply validation_fails|done]. }
  destruct (sg (S n) u (Query (doc_of b))) as [e|r] eqn:Hq.
  { right. exists e, 2. split; [by eapply query_fails|done]. }
  assert (Ha : fetch_answers sg n u b r) by (by exists s).
  destruct (json_getitem r "winningTicketRedeemedEvents") as [e|d] eqn:Hd.
  { right. exists e, 2. split; [by eapply events_missing|done]. }
  left. exists r, d. by split_and!.
Qed.

End Runs.

