(* ===== verification/Fees.v ===== *)
(** * The module body of src/get_ai_fees.py (lines 60-75)

    The script loops over the lower-cased broadcasters (line 64); for each
    it calls [fetch_data_for_broadcaster] ([GqlFetch]: an introspection
    request, then the query), prints the answer, adds [len(data)] to
    [total_tickets] and the [sum] of the events'
    [float(event["faceValue"])] (and [faceValueUSD]) to the two totals,
    which start as the [int] 0, and prints the three totals.  Nothing is
    caught: any exception ends the script.

    The lines printed are kept as data ([fees_line]): Python's [repr] of
    the response and of the floats is not modelled.  The theorems hold for
    every gql library ([GraphQLLibrary]) and every subgraph.

    The theorems: the exact requests (two per broadcaster), lines and
    totals on well-formed answers (C12); the abort on a failed fetch
    (C13); and, for any answers, the Python types of the printed totals
    (C17).  As C12 states, the totals are per-broadcaster [sum]s added in
    order, in the [sum] of the Python version that runs the script: they
    depend on how the events are grouped and on that version. *)

From Stdlib Require Import ZArith Floats.
From stdpp Require Import base list strings.
From S2P Require Import Prelude PyFloat Json StrFormat Contracts FeesQuery GqlFetch.

(** Line 33. *)
Definition url : string := "https://dca-graph-node.livepeer.fun/subgraphs/name/livepeer".

(** [a + b] as a statement. *)
Definition add_num (a b : pynum) : M fees_world pynum :=
  lift (match py_add a b with
        | Some c => inr c
        | None => inl (OverflowError "int too large to convert to float")
        end).

(** [[float(event[field]) for event in events]] *)
Definition face_values (field : string) (events : list json) : exn + list float :=
  map_exn (fun ev => match json_getitem ev field with
                     | inl e => inl e
                     | inr x => json_float x
                     end) events.

Section Script.
Context `{GL : GraphQLLibrary} (sg : subgraph) (v : py_version).

(** Lines 66-70: one iteration, on the totals so far. *)
Definition fees_step (totals : Z * pynum * pynum) (broadcaster : string)
    : M fees_world (Z * pynum * pynum) :=
  let '(total_tickets, total_face_value, total_face_value_USD) := totals in
  data ← fetch_data_for_broadcaster sg url WINNING_TICKET_QUERY broadcaster;
  emit (DataLine broadcaster data);;
  n ← lift (json_len data);
  events ← lift (json_iter data);
  fvs ← lift (face_values "faceValue" events);
  total_face_value' ← add_num total_face_value (py_sum v fvs);
  events' ← lift (json_iter data);
  usds ← lift (face_values "faceValueUSD" events');
  total_face_value_USD' ← add_num total_face_value_USD (py_sum v usds);
  mret (total_tickets + n, total_face_value', total_face_value_USD')%Z.

(** Line 65: [for broadcaster in broadcasters:] *)
Fixpoint fees_loop (bs : list string) (totals : Z * pynum * pynum)
    : M fees_world (Z * pynum * pynum) :=
  match bs with
  | [] => mret totals
  | b :: bs' => totals' ← fees_step totals b; fees_loop bs' totals'
  end.

(** Lines 60-75. *)
Definition fees_script : M fees_world unit :=
  '(total_tickets, total_face_value, total_face_value_USD) ←
    fees_loop broadcasters (0%Z, PInt 0, PInt 0);
  emit (TotalTickets total_tickets);;
  emit (TotalFaceValue total_face_value);;
  emit (TotalFaceValueUSD total_face_value_USD).

End Script.

(** ** The reference totals *)

(** An [int] that is 0 or a [float]: what the totals are at every step. *)
Definition num_ok (a : pynum) : Prop :=
  match a with
  | PInt z => z = 0%Z
  | PFloat _ => True
  end.

(** [a + sum(xs)] *)
Definition add_sum (v : py_version) (a : pynum) (xs : list float) : pynum :=
  default a (py_add a (py_sum v xs)).

(** [0 + sum(xs_1) + sum(xs_2) + ...], left to right. *)
Definition total_of (v : py_version) (xss : list (list float)) : pynum :=
  fold_left (add_sum v) xss (PInt 0).

Lemma py_sum_ok v xs : num_ok (py_sum v xs).
Proof. destruct xs; [done|]. destruct v; simpl; [done|]. by destruct (neumaier _ _ _). Qed.

Lemma int_to_float_zero : int_to_float 0 = Some PrimFloat.zero.
Proof. reflexivity. Qed.

Lemma py_add_sum v a xs :
  num_ok a -> py_add a (py_sum v xs) = Some (add_sum v a xs) /\ num_ok (add_sum v a xs).
Proof.
  unfold add_sum. pose proof (py_sum_ok v xs) as Hs.
  destruct a as [z|f], (py_sum v xs) as [z'|f']; simpl in *; intros Ha; subst; simpl;
    try rewrite int_to_float_zero; simpl; by split.
Qed.

(** The answer of the subgraph carrying the events [evs]. *)
Definition events_response (evs : list json) : json :=
  JDict [("winningTicketRedeemedEvents", JList evs)].

Definition face_values_or_nil (field : string) (evs : list json) : list float :=
  match face_values field evs with
  | inr xs => xs
  | inl _ => []
  end.

Definition parses (evs : list json) : Prop :=
  (exists xs, face_values "faceValue" evs = inr xs) /\
  (exists ys, face_values "faceValueUSD" evs = inr ys).

(** The requests of the fetches for [bs], in order. *)
Definition requests_for (bs : list string) : list (string * gql_request) :=
  concat (map (requests_of url) bs).

(** The fetch of the [i]-th broadcaster of [bs], from a process that has
    sent [n] requests, gets the [i]-th list of events of [evss]. *)
Definition fetches_answer `{GL : GraphQLLibrary} (sg : subgraph) (n : nat)
    (bs : list string) (evss : list (list json)) : Prop :=
  forall i b evs, bs !! i = Some b -> evss !! i = Some evs ->
    fetch_answers sg (n + 2 * i) url b (events_response evs).

(** ** One iteration *)

Lemma run_emit l w : emit l w = (mk_fees_world (requests w) (lines w ++ [l]), Ret tt).
Proof. reflexivity. Qed.

Lemma events_response_getitem evs :
  json_getitem (events_response evs) "winningTicketRedeemedEvents" = inr (JList evs).
Proof. reflexivity. Qed.

Lemma fees_step_ok `{GL : GraphQLLibrary} sg v tt fv fvu b w evs :
  fetch_answers sg (length (requests w)) url b (events_response evs) ->
  parses evs -> num_ok fv -> num_ok fvu ->
  fees_step sg v (tt, fv, fvu) b w =
  (mk_fees_world (requests w ++ requests_of url b) (lines w ++ [DataLine b (JList evs)]),
   Ret (tt + Z.of_nat (length evs),
        add_sum v fv (face_values_or_nil "faceValue" evs),
        add_sum v fvu (face_values_or_nil "faceValueUSD" evs))%Z).
Proof.
  intros Hf [[xs Hxs] [ys Hys]] Hfv Hfvu.
  destruct (py_add_sum v fv xs Hfv) as [Hadd1 _].
  destruct (py_add_sum v fvu ys Hfvu) as [Hadd2 _].
  unfold fees_step, face_values_or_nil. rewrite Hxs, Hys.
  rewrite (run_bind_fetch_ok sg url b w _ _ _ Hf (events_response_getitem evs)).
  repeat first [ rewrite run_bind_lift_inr | rewrite Hxs | rewrite Hys | rewrite Hadd1
               | rewrite Hadd2 | rewrite (run_bind_ret _ _ _ _ _ (run_emit _ _))
               | progress cbn [json_len json_iter] | progress unfold add_num ].
  reflexivity.
Qed.

(** A failed fetch ends the iteration with its exception. *)
Lemma fees_step_raises `{GL : GraphQLLibrary} sg v totals b w e k :
  fetch_fails sg (length (requests w)) url b e k ->
  fees_step sg v totals b w = (with_requests w (take k (requests_of url b)), Exc e).
Proof.
  intros Hf. destruct totals as [[tt fv] fvu]. unfold fees_step.
  exact (run_bind_fetch_fails sg url b w e k _ Hf).
Qed.

(** ** The loop *)

Lemma requests_for_cons b bs : requests_for (b :: bs) = requests_of url b ++ requests_for bs.
Proof. reflexivity. Qed.

(** The answers of the fetches after the first one. *)
Lemma fetches_answer_tail `{GL : GraphQLLibrary} sg n b bs evs evss :
  fetches_answer sg n (b :: bs) (evs :: evss) -> fetches_answer sg (n + 2) bs evss.
Proof.
  intros Hsg i b' evs' Hb Hevs.
  replace (n + 2 + 2 * i) with (n + 2 * S i) by lia. by apply Hsg.
Qed.

Lemma fetches_answer_head `{GL : GraphQLLibrary} sg n b bs evs evss :
  fetches_answer sg n (b :: bs) (evs :: evss) -> fetch_answers sg n url b (events_response evs).
Proof. intros Hsg. rewrite <- (Nat.add_0_r n) at 1. by apply (Hsg 0). Qed.

Lemma length_requests_step w b :
  length (requests w ++ requests_of url b) = length (requests w) + 2.
Proof. by rewrite length_app. Qed.

Lemma fees_loop_ok `{GL : GraphQLLibrary} sg v bs : forall evss tt fv fvu w,
  length bs = length evss -> fetches_answer sg (length (requests w)) bs evss ->
  Forall parses evss -> num_ok fv -> num_ok fvu ->
  fees_loop sg v bs (tt, fv, fvu) w =
  (mk_fees_world (requests w ++ requests_for bs)
     (lines w ++ zip_with (fun b evs => DataLine b (JList evs)) bs evss),
   Ret (tt + Z.of_nat (sum_list_with length evss),
        fold_left (add_sum v) (map (face_values_or_nil "faceValue") evss) fv,
        fold_left (add_sum v) (map (face_values_or_nil "faceValueUSD") evss) fvu)%Z).
Proof.
  induction bs as [|b bs IH]; intros [|evs evss] tt fv fvu w Hlen Hsg Hp Hfv Hfvu;
    simpl in Hlen; try lia; cbn [fees_loop].
  - rewrite run_ret. destruct w. simpl. by rewrite !app_nil_r, Z.add_0_r.
  - apply Forall_cons in Hp as [Hp1 Hp].
    rewrite (run_bind_ret _ _ _ _ _ (fees_step_ok sg v tt fv fvu b w evs
               (fetches_answer_head _ _ _ _ _ _ Hsg) Hp1 Hfv Hfvu)).
    rewrite (IH evss); [| lia | | done | exact (proj2 (py_add_sum v fv _ Hfv))
                       | exact (proj2 (py_add_sum v fvu _ Hfvu))].
    + rewrite requests_for_cons. simpl. by rewrite <- !app_assoc, Nat2Z.inj_add, Z.add_assoc.
    + cbn [requests]. rewrite length_requests_step. exact (fetches_answer_tail _ _ _ _ _ _ Hsg).
Qed.

Lemma fees_loop_abort `{GL : GraphQLLibrary} sg v b post e k pre : forall evss tt fv fvu w,
  length pre = length evss -> fetches_answer sg (length (requests w)) pre evss ->
  Forall parses evss -> num_ok fv -> num_ok fvu ->
  fetch_fails sg (length (requests w) + 2 * length pre) url b e k ->
  fees_loop sg v (pre ++ b :: post) (tt, fv, fvu) w =
  (mk_fees_world (requests w ++ requests_for pre ++ take k (requests_of url b))
     (lines w ++ zip_with (fun b evs => DataLine b (JList evs)) pre evss), Exc e).
Proof.
  induction pre as [|b0 pre IH]; intros [|evs evss] tt fv fvu w Hlen Hsg Hp Hfv Hfvu Hf;
    simpl in Hlen; try lia; cbn [fees_loop app].
  - rewrite Nat.add_0_r in Hf.
    rewrite (run_bind_exc _ _ _ _ _ (fees_step_raises sg v _ b w e k Hf)).
    by rewrite app_nil_r.
  - apply Forall_cons in Hp as [Hp1 Hp].
    rewrite (run_bind_ret _ _ _ _ _ (fees_step_ok sg v tt fv fvu b0 w evs
               (fetches_answer_head _ _ _ _ _ _ Hsg) Hp1 Hfv Hfvu)).
    rewrite (IH evss); [| lia | | done | exact (proj2 (py_add_sum v fv _ Hfv))
                       | exact (proj2 (py_add_sum v fvu _ Hfvu)) |].
    + rewrite requests_for_cons. simpl. by rewrite <- !app_assoc.
    + cbn [requests]. rewrite length_requests_step. exact (fetches_answer_tail _ _ _ _ _ _ Hsg).
    + cbn [requests]. rewrite length_requests_step.
      by replace (length (requests w) + 2 + 2 * length pre)
        with (length (requests w) + 2 * S (length pre)) by lia.
Qed.

(** ** The script *)

(** C12: when the fetch for each of the three broadcasters gets a list of
    events whose [faceValue] and [faceValueUSD] are numbers [float()]
    accepts, the script ends normally; it sends two requests per
    broadcaster, in order: an introspection request, since each fetch
    builds a new client that fetches the schema again, and then the query
    of C11; it prints each answer, then [total_tickets] = the total number
    of events, and the two totals
    [0 + sum(values_1) + sum(values_2) + sum(values_3)] computed in
    Python's arithmetic (per-broadcaster [sum], then [+]). *)
Theorem fees_script_totals `{GL : GraphQLLibrary} sg v evss :
  length evss = length broadcasters -> fetches_answer sg 0 broadcasters evss ->
  Forall parses evss ->
  fees_script sg v fees_world0 =
  (mk_fees_world (requests_for broadcasters)
     (zip_with (fun b evs => DataLine b (JList evs)) broadcasters evss ++
      [TotalTickets (Z.of_nat (sum_list_with length evss));
       TotalFaceValue (total_of v (map (face_values_or_nil "faceValue") evss));
       TotalFaceValueUSD (total_of v (map (face_values_or_nil "faceValueUSD") evss))]),
   Ret tt).
Proof.
  intros Hlen Hsg Hp. unfold fees_script.
  rewrite (run_bind_ret _ _ _ _ _ (fees_loop_ok sg v broadcasters evss 0 (PInt 0) (PInt 0)
             fees_world0 (eq_sym Hlen) Hsg Hp eq_refl eq_refl)).
  cbv beta iota delta [mbind M_bind emit modify]. cbn [requests lines fees_world0 app].
  by rewrite <- !app_assoc.
Qed.

(** ** Failures *)

(** C13: no error recovery.  When the fetches for the first broadcasters
    get well-formed answers and the fetch for the next one fails in any
    of the ways of [fetch_fails] (the document does not parse or
    validate, a request raises, or the answer lacks
    [winningTicketRedeemedEvents]), the script ends with that exception:
    the answers before it were printed, no request is sent after the
    failing one, and no total is printed. *)
Theorem fees_script_aborts `{GL : GraphQLLibrary} sg v evss b e k :
  broadcasters !! length evss = Some b -> fetches_answer sg 0 broadcasters evss ->
  Forall parses evss -> fetch_fails sg (2 * length evss) url b e k ->
  fees_script sg v fees_world0 =
  (mk_fees_world (requests_for (take (length evss) broadcasters) ++ take k (requests_of url b))
     (zip_with (fun b evs => DataLine b (JList evs)) broadcasters evss), Exc e).
Proof.
  intros Hb Hsg Hp Hf.
  assert (Hpre : length (take (length evss) broadcasters) = length evss)
    by (rewrite length_take; apply lookup_lt_Some in Hb; lia).
  assert (Hsg' : fetches_answer sg (length (requests fees_world0))
                   (take (length evss) broadcasters) evss).
  { intros i b' evs Hb' Hevs. apply Hsg; [|done].
    by apply lookup_take_Some in Hb' as [? _]. }
  unfold fees_script.
  rewrite <- (take_drop_middle broadcasters (length evss) b Hb) at 1.
  rewrite (run_bind_exc _ _ _ _ _ (fees_loop_abort sg v b _ e k _ evss 0 (PInt 0) (PInt 0)
             fees_world0 Hpre Hsg' Hp eq_refl eq_refl ltac:(by rewrite Hpre))).
  cbn [requests lines fees_world0 app]. rewrite zip_with_take_l'; [done|]. lia.
Qed.


(** ** The type of the totals, whatever the subgraph answers *)

Lemma add_num_sum_ok v a xs w w' c :
  num_ok a -> add_num a (py_sum v xs) w = (w', Ret c) -> num_ok c.
Proof.
  intros Ha H. unfold add_num in H. destruct (py_add_sum v a xs Ha) as [E Hok].
  rewrite E in H. apply lift_ret_inv in H as [[= <-] _]. exact Hok.
Qed.

Ltac invert_run H :=
  repeat match type of H with
  | ((_ ≫= _) _ = (_, Ret _)) =>
      let w := fresh "w" in let x := fresh "x" in let H1 := fresh "Hs" in
      apply run_bind_ret_inv in H as (w & x & H1 & H)
  end.

Lemma fees_step_types `{GL : GraphQLLibrary} sg v tt fv fvu b w w' tt' fv' fvu' :
  num_ok fv -> num_ok fvu ->
  fees_step sg v (tt, fv, fvu) b w = (w', Ret (tt', fv', fvu')) ->
  (tt <= tt')%Z /\ num_ok fv' /\ num_ok fvu'.
Proof.
  intros Hfv Hfvu H. unfold fees_step in H. invert_run H.
  apply lift_ret_inv in Hs1 as [Hn _]. apply json_len_nonneg in Hn.
  cbv [mret M_ret] in H. injection H as _ <- <- <-.
  split_and!; [lia|exact (add_num_sum_ok _ _ _ _ _ _ Hfv Hs4)
              |exact (add_num_sum_ok _ _ _ _ _ _ Hfvu Hs7)].
Qed.

Lemma fees_loop_types `{GL : GraphQLLibrary} sg v bs : forall tt fv fvu w w' tt' fv' fvu',
  num_ok fv -> num_ok fvu ->
  fees_loop sg v bs (tt, fv, fvu) w = (w', Ret (tt', fv', fvu')) ->
  (tt <= tt')%Z /\ num_ok fv' /\ num_ok fvu'.
Proof.
  induction bs as [|b bs IH]; intros tt fv fvu w w' tt' fv' fvu' Hfv Hfvu H; cbn [fees_loop] in H.
  - cbv [mret M_ret] in H. injection H as _ <- <- <-. split_and!; [lia|done|done].
  - apply run_bind_ret_inv in H as (w1 & [[tt1 fv1] fvu1] & H1 & H).
    destruct (fees_step_types _ _ _ _ _ _ _ _ _ _ _ Hfv Hfvu H1) as (Ht1 & Hfv1 & Hfvu1).
    destruct (IH _ _ _ _ _ _ _ _ Hfv1 Hfvu1 H) as (Ht2 & ? & ?). split_and!; [lia|done|done].
Qed.

(** C17: the Python types of the printed totals, whatever the subgraph
    answers: when the script ends normally, its last three lines are the
    totals, the ticket count is a non-negative [int], and each face value
    total is the [int] 0 (no event at all) or a [float], never another
    [int]: the [+=] of lines 69-70 always meets [int 0] or a [float] and
    never raises. *)
Theorem fees_script_total_types `{GL : GraphQLLibrary} sg v w w' :
  fees_script sg v w = (w', Ret tt) ->
  exists pre n a b, lines w' = pre ++ [TotalTickets n; TotalFaceValue a; TotalFaceValueUSD b] /\
    (0 <= n)%Z /\ num_ok a /\ num_ok b.
Proof.
  unfold fees_script. intros H.
  apply run_bind_ret_inv in H as (w1 & [[n a] b] & H1 & H).
  destruct (fees_loop_types sg v broadcasters 0 (PInt 0) (PInt 0) w w1 n a b eq_refl eq_refl H1)
    as (Hn & Ha & Hb).
  cbv [mbind M_bind emit modify] in H. injection H as <-.
  exists (lines w1), n, a, b. simpl. split_and!; [by rewrite <- !app_assoc|done|done|done].
Qed.

(** ** Example answers *)

(** The subgraph that answers the [n]-th request with the [n]-th of [rs]. *)
Definition replay (rs : list (exn + json)) : subgraph :=
  fun n _ _ => default (inl (RemoteError "no answer")) (rs !! n).

(** An introspection answer. *)
Definition example_schema : json := JDict [("__schema", JDict [])].

(** Each fetch's two answers: the schema, then the events. *)
Definition responses (evss : list (list json)) : list (exn + json) :=
  concat (map (fun evs => [inr example_schema; inr (events_response evs)]) evss).

(** A gql library that parses and validates every document. *)
#[local] Instance accepting_graphql : GraphQLLibrary :=
  {| gql_parse _ := None; gql_validate _ _ := None |}.

Lemma responses_lookup evss i evs :
  evss !! i = Some evs ->
  responses evss !! (2 * i) = Some (inr example_schema) /\
  responses evss !! S (2 * i) = Some (inr (events_response evs)).
Proof.
  revert i. induction evss as [|evs' evss IH]; intros [|i] Hi; simpl in Hi; try done.
  - by injection Hi as ->.
  - replace (2 * S i) with (S (S (2 * i))) by lia. by apply IH.
Qed.

(** Replayed answers, followed by any others, answer every fetch of the
    broadcasters they are given for. *)
Lemma replay_fetches_answer bs evss rest :
  fetches_answer (replay (responses evss ++ rest)) 0 bs evss.
Proof.
  intros i b evs _ Hevs. destruct (responses_lookup _ _ _ Hevs) as [H1 H2].
  exists example_schema. unfold replay. cbn [Nat.add].
  rewrite !lookup_app_l by (eapply lookup_lt_Some; eassumption). by rewrite H1, H2.
Qed.

(** A [WinningTicketRedeemedEvent] as the subgraph returns it: its face
    values are decimal strings. *)
Definition ticket (fv usd : string) : json :=
  JDict [("faceValue", JStr fv); ("faceValueUSD", JStr usd)].

(** The spec's example: no event for the first broadcaster, two for the
    second, one for the third. *)
Definition example_events : list (list json) :=
  [[]; [ticket "0.01" "25.5"; ticket "0.02" "51"]; [ticket "0.005" "12.75"]].

Lemma example_events_parse : Forall parses example_events.
Proof. repeat constructor; eexists; reflexivity. Qed.

Lemma fees_script_totals_witness :
  length example_events = length broadcasters /\
  fetches_answer (replay (responses example_events)) 0 broadcasters example_events /\
  Forall parses example_events /\
  fees_script (replay (responses example_events)) Py312 fees_world0 =
  (mk_fees_world (requests_for broadcasters)
     (zip_with (fun b evs => DataLine b (JList evs)) broadcasters example_events ++
      [TotalTickets 3;
       TotalFaceValue (total_of Py312 (map (face_values_or_nil "faceValue") example_events));
       TotalFaceValueUSD (total_of Py312 (map (face_values_or_nil "faceValueUSD") example_events))]),
   Ret tt).
Proof.
  assert (Hsg : fetches_answer (replay (responses example_events)) 0 broadcasters
                  example_events).
  { pose proof (replay_fetches_answer broadcasters example_events []) as H.
    by rewrite app_nil_r in H. }
  split_and!; [reflexivity|exact Hsg|exact example_events_parse|].
  exact (fees_script_totals _ Py312 example_events eq_refl Hsg example_events_parse).
Defined.

(** The first fetch gets no event; the second one's query times out. *)
Definition timeout_answers : list (exn + json) :=
  responses [[]] ++ [inr example_schema; inl (RemoteError "timeout")].

Lemma fees_script_aborts_witness :
  exists b, broadcasters !! 1 = Some b /\
  fetch_fails (replay timeout_answers) 2 url b (RemoteError "timeout") 2 /\
  fees_script (replay timeout_answers) Py311 fees_world0 =
  (mk_fees_world (requests_for (take 1 broadcasters) ++ requests_of url b)
     (zip_with (fun b evs => DataLine b (JList evs)) broadcasters [[]]),
   Exc (RemoteError "timeout")).
Proof.
  set (b := "0x87d4396204035736422c2c6dfce423bba6daa776").
  exists b. split; [reflexivity|].
  assert (Hf : fetch_fails (replay timeout_answers) 2 url b (RemoteError "timeout") 2)
    by (eapply query_fails; reflexivity).
  split; [exact Hf|].
  exact (fees_script_aborts _ Py311 [[]] _ _ 2 eq_refl (replay_fetches_answer _ _ _)
           ltac:(repeat constructor; eexists; reflexivity)
           Hf).
Defined.

Lemma fees_script_total_types_witness :
  let r := fees_script (replay (responses example_events)) Py312 fees_world0 in
  r = (r.1, Ret tt) /\
  exists pre n a b, lines r.1 = pre ++ [TotalTickets n; TotalFaceValue a; TotalFaceValueUSD b] /\
    (0 <= n)%Z /\ num_ok a /\ num_ok b.
Proof.
  intros r.
  assert (H : r = (r.1, Ret tt)) by (vm_compute; reflexivity).
  split; [exact H|].
  exact (fees_script_total_types _ _ _ _ H).
Defined.
